(** * audio-lab: orchestration core

  A shallow embedding of the Go packages [pkg/errors], [domain/model],
  [infrastructure/ffmpeg] (the filter chain builder), [application/pipeline]
  (Pipeline and WorkerPool), [pkg/retry] and [application/usecase]
  (AudioService), followed by the properties of the orchestration core.

  Conventions.
  - Go [int], [int64] and [time.Duration] values are [Z]; no operation of
    the modelled code can overflow on the inputs the theorems look at.
  - Go string types ([Codec], [BitrateMode], [Stage]) are [string].
  - A Go [error] is [option error]: [None] is [nil].
  - [float64] option fields hold the exact rational value of the float
    ([Q]); only finite values other than negative zero are represented.
  - External collaborators (storage, executor, clock, reporter, the
    context) are functions on an abstract world [W].  Logging through zap
    has no effect the core can observe and is left out.
  - Goroutines and channels are a transition system: a state holds the
    channels and the program point of every goroutine, a step is one
    communication or one call.

  The definitions come first, package by package; the properties follow
  from "Properties" on. *)

From Stdlib Require Import ZArith List String Ascii Bool Lia QArith Qabs.
From Stdlib Require Import DecimalString Permutation.
Import ListNotations.

#[local] Set Warnings "-register-all".

#[local] Open Scope string_scope.
#[local] Open Scope Z_scope.

(* ================================================================= *)
(** ** fmt: the two verbs the core uses *)

Module fmt.

(** [%d] on an integer. *)
Definition d (z : Z) : string := NilZero.string_of_int (Z.to_int z).

(** Nearest integer of a non-negative rational, ties to even. *)
Definition round_half_even (q : Q) : Z :=
  let n := Qnum q in
  let m := Zpos (Qden q) in
  let fl := n / m in
  let r := n mod m in
  if 2 * r <? m then fl
  else if m <? 2 * r then fl + 1
  else if Z.even fl then fl else fl + 1.

(** [%.1f] on a finite float: sign, integer part, one rounded decimal. *)
Definition f1 (q : Q) : string :=
  let t := round_half_even (Qabs q * (10 # 1)) in
  (if Qlt_le_dec q 0 then "-" else "")
    ++ d (t / 10) ++ "." ++ d (t mod 10).

End fmt.

(* ================================================================= *)
(** ** pkg/errors *)

Module errors.

Inductive ErrorCode :=
| ErrCodeProcessing
| ErrCodeFFmpeg
| ErrCodeValidation
| ErrCodeIO
| ErrCodeTimeout
| ErrCodeCanceled.

(** The [interface{}] payload of a validation error: the code stores a
    string or an int there. *)
Inductive value :=
| VString (s : string)
| VInt (n : Z).

(** The error values that flow through the core.  The three structured
    kinds carry the fields of the embedded [MusicProcError] ([Code],
    [Message], [Cause]; [Fields] is never set) followed by their own. *)
Inductive error :=
| ProcessingError (Code : ErrorCode) (Message : string)
    (Cause : option error) (Stage : string)
| FFmpegError (Code : ErrorCode) (Message : string)
    (Cause : option error) (Args : list string) (ExitCode : Z)
    (Stderr : string)
| ValidationError (Code : ErrorCode) (Message : string)
    (Cause : option error) (Field : string) (Value : value)
| Errorf (msg : string) (wrapped : option error)
    (* fmt.Errorf; [wrapped] is the operand of %w, if any *)
| Canceled            (* context.Canceled *)
| DeadlineExceeded    (* context.DeadlineExceeded *)
| Foreign (msg : string). (* any other error of a collaborator *)

Definition NewProcessingError (stage message : string)
    (cause : option error) : error :=
  ProcessingError ErrCodeProcessing message cause stage.

Definition NewFFmpegError (message : string) (args : list string)
    (exitCode : Z) (stderr : string) (cause : option error) : error :=
  FFmpegError ErrCodeFFmpeg message cause args exitCode stderr.

Definition NewValidationError (field : string) (v : value)
    (message : string) : error :=
  ValidationError ErrCodeValidation message None field v.

(** [Unwrap]: the next error of the chain. *)
Definition Unwrap (e : error) : option error :=
  match e with
  | ProcessingError _ _ c _ => c
  | FFmpegError _ _ c _ _ _ => c
  | ValidationError _ _ c _ _ => c
  | Errorf _ w => w
  | _ => None
  end.

(** The kind of an error value: its dynamic type. *)
Definition is_validation (e : error) : bool :=
  match e with ValidationError _ _ _ _ _ => true | _ => false end.

Definition is_processing (e : error) : bool :=
  match e with ProcessingError _ _ _ _ => true | _ => false end.

(** [errors.As(err, &valErr)] with [valErr : *ValidationError]: is there
    a validation error somewhere on the [Unwrap] chain? *)
Fixpoint As_ValidationError (e : error) : bool :=
  match e with
  | ValidationError _ _ _ _ _ => true
  | ProcessingError _ _ c _ =>
      match c with Some c' => As_ValidationError c' | None => false end
  | FFmpegError _ _ c _ _ _ =>
      match c with Some c' => As_ValidationError c' | None => false end
  | Errorf _ w =>
      match w with Some c' => As_ValidationError c' | None => false end
  | _ => false
  end.

(** The errors of a chain, outermost first: [e], [Unwrap e], ... *)
Fixpoint chain (e : error) : list error :=
  e :: match e with
       | ProcessingError _ _ c _ =>
           match c with Some c' => chain c' | None => [] end
       | FFmpegError _ _ c _ _ _ =>
           match c with Some c' => chain c' | None => [] end
       | ValidationError _ _ c _ _ =>
           match c with Some c' => chain c' | None => [] end
       | Errorf _ w =>
           match w with Some c' => chain c' | None => [] end
       | _ => []
       end.

(** [truncate(s, n)] for [n >= 0]: [s] if it has at most [n] bytes, else
    its first [n] bytes followed by three dots. *)
Definition truncate (s : string) (n : nat) : string :=
  if (String.length s <=? n)%nat then s
  else substring 0 n s ++ "...".

End errors.

(* ================================================================= *)
(** ** domain/model *)

Module model.

Definition Codec := string.
Definition CodecOpus : Codec := "opus".
Definition CodecAAC : Codec := "aac".
Definition CodecMP3 : Codec := "mp3".

Definition BitrateMode := string.
Definition BitrateModeVBR : BitrateMode := "vbr".
Definition BitrateCBR : BitrateMode := "cbr".

(** One second, in nanoseconds, the unit of [time.Duration]. *)
Definition Second : Z := 1000000000.
Definition Minute : Z := 60 * Second.

Record AudioMetadata := {
  Duration : Z;
  SampleRate : Z;
  Channels : Z;
  Bitrate : Z;
  Codec_ : string;
  Format : string;
  Size : Z
}.

(** [&model.AudioMetadata{}] *)
Definition zero_AudioMetadata : AudioMetadata :=
  {| Duration := 0; SampleRate := 0; Channels := 0; Bitrate := 0;
     Codec_ := ""; Format := ""; Size := 0 |}.

Record ProcessingOptions := {
  oCodec : Codec;
  oBitrate : Z;
  oBitrateMode : BitrateMode;
  oSampleRate : Z;
  NormalizationEnabled : bool;
  LoudnessTarget : Q;
  TruePeakLimit : Q;
  LoudnessRange : Q;
  HighpassEnabled : bool;
  HighpassFreq : Z;
  LowpassEnabled : bool;
  LowpassFreq : Z;
  Timeout : Z;
  Workers : Z;
  MaxRetries : Z;
  RetryDelay : Z
}.

Definition DefaultProcessingOptions : ProcessingOptions :=
  {| oCodec := CodecOpus;
     oBitrate := 128000;
     oBitrateMode := BitrateCBR;
     oSampleRate := 48000;
     NormalizationEnabled := true;
     LoudnessTarget := (-23 # 1);
     TruePeakLimit := (-1 # 1);
     LoudnessRange := (7 # 1);
     HighpassEnabled := false;
     HighpassFreq := 80;
     LowpassEnabled := false;
     LowpassFreq := 18000;
     Timeout := 5 * Minute;
     Workers := 4;
     MaxRetries := 3;
     RetryDelay := Second |}.

Record ProcessingResult := {
  rInputPath : string;
  rOutputPath : string;
  InputMeta : option AudioMetadata;   (* *AudioMetadata *)
  OutputMeta : option AudioMetadata;  (* *AudioMetadata *)
  rDuration : Z;
  ProcessedAt : Z
}.

Record BatchJob := {
  ID : string;
  InputPath : string;
  OutputPath : string;
  Options : option ProcessingOptions
}.

Record BatchResult := {
  JobID : string;
  Result : option ProcessingResult;
  Err : option errors.error
}.

End model.

(* ================================================================= *)
(** ** infrastructure/ffmpeg: FilterChainBuilder *)

Module ffmpeg.

Record FilterChainBuilder := { filters : list string }.

Definition NewFilterChainBuilder : FilterChainBuilder :=
  {| filters := [] |}.

Definition AddHighpass (freq : Z) (b : FilterChainBuilder) :=
  {| filters := filters b ++ ["highpass=f=" ++ fmt.d freq] |}.

Definition AddLowpass (freq : Z) (b : FilterChainBuilder) :=
  {| filters := filters b ++ ["lowpass=f=" ++ fmt.d freq] |}.

Definition AddLoudnorm (targetLUFS truePeak LRA : Q)
    (b : FilterChainBuilder) :=
  {| filters := filters b ++
       ["loudnorm=I=" ++ fmt.f1 targetLUFS ++ ":TP=" ++ fmt.f1 truePeak
          ++ ":LRA=" ++ fmt.f1 LRA] |}.

Definition AddResample (hz : Z) (b : FilterChainBuilder) :=
  {| filters := filters b ++ ["aresample=" ++ fmt.d hz] |}.

(** [strings.Join(b.filters, ",")] *)
Definition Build (b : FilterChainBuilder) : string :=
  String.concat "," (filters b).

Definition IsEmpty (b : FilterChainBuilder) : bool :=
  match filters b with [] => true | _ => false end.

End ffmpeg.

(* ================================================================= *)
(** ** pkg/progress *)

Module progress.

Definition Stage := string.
Definition StageProbe : Stage := "probe".
Definition StagePreprocess : Stage := "preprocess".
Definition StageNormalize : Stage := "normalize".
Definition StageFilter : Stage := "filter".
Definition StageEncode : Stage := "encode".
Definition StageDone : Stage := "done".

(** [Percent] only ever holds the integral checkpoints 5, 20, 90, 100;
    [Timestamp] is left at its zero value by the pipeline. *)
Record Update := {
  JobID : string;
  Stage_ : Stage;
  Percent : Z;
  Message : string
}.

(** A channel of updates at a moment when no receiver is parked on it:
    what is queued, and [cap] of the channel.  A send can proceed exactly
    when the queue has room. *)
Record chan := {
  queue : list Update;
  capacity : nat
}.

(** [ChannelReporter.Report]: a send that does not block; the update is
    dropped when the send cannot proceed. *)
Definition ChannelReporter_Report (u : Update) (ch : chan) : chan :=
  if (List.length (queue ch) <? capacity ch)%nat
  then {| queue := queue ch ++ [u]; capacity := capacity ch |}
  else ch.

(** The receiver takes the oldest update off the channel. *)
Definition receive (ch : chan) : option Update * chan :=
  match queue ch with
  | [] => (None, ch)
  | u :: q => (Some u, {| queue := q; capacity := capacity ch |})
  end.

Section Reporters.

Context {W : Type}.

(** [MultiReporter]: the reporters it fans out to, oldest first. *)
Record MultiReporter := {
  reporters : list (Update -> W -> W)
}.

Definition NewMultiReporter (rs : list (Update -> W -> W))
    : MultiReporter :=
  {| reporters := rs |}.

Definition MultiReporter_Add (r : Update -> W -> W) (m : MultiReporter)
    : MultiReporter :=
  {| reporters := reporters m ++ [r] |}.

Definition MultiReporter_Report (m : MultiReporter) (u : Update) (w : W)
    : W :=
  fold_left (fun w r => r u w) (reporters m) w.

(** [NoopReporter.Report] *)
Definition NoopReporter_Report (u : Update) (w : W) : W := w.

End Reporters.

Arguments MultiReporter : clear implicits.

End progress.

(* ================================================================= *)
(** ** domain/ports and the Go runtime *)

Module ports.

Import errors.

(** [StorageProvider]: the core only calls [Exists]. *)
Record StorageProvider (W : Type) := {
  Exists : string -> W -> (bool * option error) * W
}.

Record FFmpegExecutor (W : Type) := {
  Execute : list string -> W -> option error * W;
  Probe : string -> W -> (list Byte.byte * option error) * W
}.

Arguments Exists {W}.
Arguments Execute {W}.
Arguments Probe {W}.

(** Functional options. *)
Definition Option := model.ProcessingOptions -> model.ProcessingOptions.

Definition WithCodec (codec : model.Codec) : Option := fun o =>
  {| model.oCodec := codec;
     model.oBitrate := model.oBitrate o;
     model.oBitrateMode := model.oBitrateMode o;
     model.oSampleRate := model.oSampleRate o;
     model.NormalizationEnabled := model.NormalizationEnabled o;
     model.LoudnessTarget := model.LoudnessTarget o;
     model.TruePeakLimit := model.TruePeakLimit o;
     model.LoudnessRange := model.LoudnessRange o;
     model.HighpassEnabled := model.HighpassEnabled o;
     model.HighpassFreq := model.HighpassFreq o;
     model.LowpassEnabled := model.LowpassEnabled o;
     model.LowpassFreq := model.LowpassFreq o;
     model.Timeout := model.Timeout o;
     model.Workers := model.Workers o;
     model.MaxRetries := model.MaxRetries o;
     model.RetryDelay := model.RetryDelay o |}.

Definition WithBitrate (bitrate : Z) : Option := fun o =>
  {| model.oCodec := model.oCodec o;
     model.oBitrate := bitrate;
     model.oBitrateMode := model.oBitrateMode o;
     model.oSampleRate := model.oSampleRate o;
     model.NormalizationEnabled := model.NormalizationEnabled o;
     model.LoudnessTarget := model.LoudnessTarget o;
     model.TruePeakLimit := model.TruePeakLimit o;
     model.LoudnessRange := model.LoudnessRange o;
     model.HighpassEnabled := model.HighpassEnabled o;
     model.HighpassFreq := model.HighpassFreq o;
     model.LowpassEnabled := model.LowpassEnabled o;
     model.LowpassFreq := model.LowpassFreq o;
     model.Timeout := model.Timeout o;
     model.Workers := model.Workers o;
     model.MaxRetries := model.MaxRetries o;
     model.RetryDelay := model.RetryDelay o |}.

Definition WithLoudnessTarget (lufs : Q) : Option := fun o =>
  {| model.oCodec := model.oCodec o;
     model.oBitrate := model.oBitrate o;
     model.oBitrateMode := model.oBitrateMode o;
     model.oSampleRate := model.oSampleRate o;
     model.NormalizationEnabled := model.NormalizationEnabled o;
     model.LoudnessTarget := lufs;
     model.TruePeakLimit := model.TruePeakLimit o;
     model.LoudnessRange := model.LoudnessRange o;
     model.HighpassEnabled := model.HighpassEnabled o;
     model.HighpassFreq := model.HighpassFreq o;
     model.LowpassEnabled := model.LowpassEnabled o;
     model.LowpassFreq := model.LowpassFreq o;
     model.Timeout := model.Timeout o;
     model.Workers := model.Workers o;
     model.MaxRetries := model.MaxRetries o;
     model.RetryDelay := model.RetryDelay o |}.

Definition WithHighpass (hz : Z) : Option := fun o =>
  {| model.oCodec := model.oCodec o;
     model.oBitrate := model.oBitrate o;
     model.oBitrateMode := model.oBitrateMode o;
     model.oSampleRate := model.oSampleRate o;
     model.NormalizationEnabled := model.NormalizationEnabled o;
     model.LoudnessTarget := model.LoudnessTarget o;
     model.TruePeakLimit := model.TruePeakLimit o;
     model.LoudnessRange := model.LoudnessRange o;
     model.HighpassEnabled := true;
     model.HighpassFreq := hz;
     model.LowpassEnabled := model.LowpassEnabled o;
     model.LowpassFreq := model.LowpassFreq o;
     model.Timeout := model.Timeout o;
     model.Workers := model.Workers o;
     model.MaxRetries := model.MaxRetries o;
     model.RetryDelay := model.RetryDelay o |}.

(** [WithRetry] stores the attempt budget and ignores its delay operand. *)
Definition WithRetry (maxRetries : Z) : Option := fun o =>
  {| model.oCodec := model.oCodec o;
     model.oBitrate := model.oBitrate o;
     model.oBitrateMode := model.oBitrateMode o;
     model.oSampleRate := model.oSampleRate o;
     model.NormalizationEnabled := model.NormalizationEnabled o;
     model.LoudnessTarget := model.LoudnessTarget o;
     model.TruePeakLimit := model.TruePeakLimit o;
     model.LoudnessRange := model.LoudnessRange o;
     model.HighpassEnabled := model.HighpassEnabled o;
     model.HighpassFreq := model.HighpassFreq o;
     model.LowpassEnabled := model.LowpassEnabled o;
     model.LowpassFreq := model.LowpassFreq o;
     model.Timeout := model.Timeout o;
     model.Workers := model.Workers o;
     model.MaxRetries := maxRetries;
     model.RetryDelay := model.RetryDelay o |}.

End ports.

Module goruntime.

Import errors.

(** The fields of ffprobe's JSON answer the pipeline reads (the struct
    [ffprobeOutput] that [json.Unmarshal] fills). *)
Record ffprobeFormat := {
  fDuration : string;
  fBitRate : string;
  fSize : string;
  fFormatName : string
}.

Record ffprobeStream := {
  sCodecName : string;
  sSampleRate : string;
  sChannels : Z;
  sBitRate : string
}.

Record ffprobeOutput := {
  pFormat : ffprobeFormat;
  pStreams : list ffprobeStream
}.

(** What the core asks of the Go runtime and standard library.
    - [Now]: [time.Now()] in nanoseconds.
    - [ctx_Err]: [ctx.Err()] of the ambient context.
    - [ctx_WithTimeout]: replace the ambient context by one with a deadline.
    - [select_Done_After d]: the [select] between [ctx.Done()] and
      [time.After(d)]; [true] when the context won.
    - [json_Unmarshal] into an [ffprobeOutput], [Sscanf_d] ([%d]),
      [Sscanf_f_seconds] ([%f] followed by the conversion of the seconds
      read to a [time.Duration]). *)
Record Runtime (W : Type) := {
  Now : W -> Z;
  ctx_Err : W -> option error;
  ctx_WithTimeout : Z -> W -> W;
  select_Done_After : Z -> W -> bool * W;
  json_Unmarshal : list Byte.byte -> ffprobeOutput + error;
  Sscanf_d : string -> option Z;
  Sscanf_f_seconds : string -> option Z
}.

Arguments Now {W}.
Arguments ctx_Err {W}.
Arguments ctx_WithTimeout {W}.
Arguments select_Done_After {W}.
Arguments json_Unmarshal {W}.
Arguments Sscanf_d {W}.
Arguments Sscanf_f_seconds {W}.

End goruntime.

(* ================================================================= *)
(** ** application/pipeline: Pipeline and WorkerPool *)

Module pipeline.

Import errors goruntime.

(** [buildCodecArgs]: Go's [/] on ints truncates toward zero, [Z.quot]. *)
Definition buildCodecArgs (opts : model.ProcessingOptions)
    : list string + error :=
  let bitrate := fmt.d (Z.quot (model.oBitrate opts) 1000) ++ "k" in
  if String.eqb (model.oCodec opts) model.CodecOpus then
    let args := ["-c:a"; "libopus"] in
    if String.eqb (model.oBitrateMode opts) model.BitrateModeVBR
    then inl (args ++ ["-vbr"; "on"; "-b:a"; bitrate])%list
    else inl (args ++ ["-vbr"; "off"; "-b:a"; bitrate])%list
  else if String.eqb (model.oCodec opts) model.CodecAAC then
    let args := ["-c:a"; "aac"] in
    if String.eqb (model.oBitrateMode opts) model.BitrateModeVBR
    then inl (args ++ ["-q:a"; "2"])%list
    else inl (args ++ ["-b:a"; bitrate])%list
  else if String.eqb (model.oCodec opts) model.CodecMP3 then
    let args := ["-c:a"; "libmp3lame"] in
    if String.eqb (model.oBitrateMode opts) model.BitrateModeVBR
    then inl (args ++ ["-q:a"; "2"])%list
    else inl (args ++ ["-b:a"; bitrate])%list
  else inr (Errorf ("unsupported codec: " ++ model.oCodec opts) None).

(** The filter chain of [runFFmpeg]: the builder after the three
    conditional additions. *)
Definition filterChain (opts : model.ProcessingOptions)
    : ffmpeg.FilterChainBuilder :=
  let fb := ffmpeg.NewFilterChainBuilder in
  let fb := if model.HighpassEnabled opts
            then ffmpeg.AddHighpass (model.HighpassFreq opts) fb else fb in
  let fb := if model.LowpassEnabled opts
            then ffmpeg.AddLowpass (model.LowpassFreq opts) fb else fb in
  let fb := if model.NormalizationEnabled opts
            then ffmpeg.AddLoudnorm (model.LoudnessTarget opts)
                   (model.TruePeakLimit opts) (model.LoudnessRange opts) fb
            else fb in
  fb.

Section Pipeline.

(** The world the collaborators act on, and the runtime. *)
Context {W : Type} (rt : Runtime W).

(** A progress reporter; [None] is the nil interface. *)
Definition Reporter_t := option (progress.Update -> W -> W).

Record Job := {
  ID : string;
  InputPath : string;
  OutputPath : string;
  TempPath : string;
  Options : model.ProcessingOptions;
  Reporter : Reporter_t
}.

Record Pipeline := {
  executor : ports.FFmpegExecutor W;
  storage : ports.StorageProvider W
}.

Definition NewPipeline (executor : ports.FFmpegExecutor W)
    (storage : ports.StorageProvider W) : Pipeline :=
  {| executor := executor; storage := storage |}.

(** [Job.report] *)
Definition report (j : Job) (stage : progress.Stage) (percent : Z)
    (msg : string) (w : W) : W :=
  match Reporter j with
  | None => w
  | Some r =>
      r {| progress.JobID := ID j; progress.Stage_ := stage;
           progress.Percent := percent; progress.Message := msg |} w
  end.

(** [Pipeline.validateInput] *)
Definition validateInput (p : Pipeline) (job : Job) (w : W)
    : option error * W :=
  if String.eqb (InputPath job) "" then
    (Some (NewValidationError "inputPath" (VString "")
             "input path must not be empty"), w)
  else if String.eqb (OutputPath job) "" then
    (Some (NewValidationError "outputPath" (VString "")
             "output path must not be empty"), w)
  else
    let '((exists_, err), w1) :=
      ports.Exists (storage p) (InputPath job) w in
    match err with
    | Some e =>
        (Some (NewProcessingError "validate" "failed to check input file"
                 (Some e)), w1)
    | None =>
        if negb exists_ then
          (Some (NewValidationError "inputPath" (VString (InputPath job))
                   "input file does not exist"), w1)
        else
          let opts := Options job in
          if model.oBitrate opts <=? 0 then
            (Some (NewValidationError "bitrate"
                     (VInt (model.oBitrate opts))
                     "bitrate must be positive"), w1)
          else if model.oSampleRate opts <=? 0 then
            (Some (NewValidationError "sampleRate"
                     (VInt (model.oSampleRate opts))
                     "sample rate must be positive"), w1)
          else (None, w1)
    end.

(** The argument vector [runFFmpeg] hands to the executor, or the error of
    [buildCodecArgs]. *)
Definition ffmpegArgs (job : Job) : list string + error :=
  let opts := Options job in
  let args := ["-y"; "-i"; InputPath job] in
  let filterStr := ffmpeg.Build (filterChain opts) in
  let args := if String.eqb filterStr "" then args
              else (args ++ ["-af"; filterStr])%list in
  let args := (args ++ ["-ar"; fmt.d (model.oSampleRate opts)])%list in
  match buildCodecArgs opts with
  | inr err => inr err
  | inl codecArgs => inl ((args ++ codecArgs) ++ [OutputPath job])%list
  end.

(** [Pipeline.runFFmpeg] *)
Definition runFFmpeg (p : Pipeline) (job : Job) (w : W)
    : option error * W :=
  match ffmpegArgs job with
  | inr err =>
      (Some (NewProcessingError "encode" "failed to build codec args"
               (Some err)), w)
  | inl args =>
      let w1 := report job progress.StageEncode 20 "encoding started" w in
      ports.Execute (executor p) args w1
  end.

(** [Pipeline.probeFile]: a field whose text does not scan keeps its zero
    value; only the first stream is read. *)
Definition probeFile (p : Pipeline) (path : string) (w : W)
    : (option model.AudioMetadata * option error) * W :=
  let '((data, err), w1) := ports.Probe (executor p) path w in
  match err with
  | Some e => ((None, Some e), w1)
  | None =>
      match json_Unmarshal rt data with
      | inr e =>
          ((None, Some (Errorf "failed to parse ffprobe output" (Some e))),
           w1)
      | inl probe =>
          let f := pFormat probe in
          let duration :=
            match Sscanf_f_seconds rt (fDuration f) with
            | Some d => d | None => 0 end in
          let size :=
            match Sscanf_d rt (fSize f) with
            | Some n => n | None => 0 end in
          let meta :=
            match pStreams probe with
            | [] =>
                {| model.Duration := duration; model.SampleRate := 0;
                   model.Channels := 0; model.Bitrate := 0;
                   model.Codec_ := ""; model.Format := fFormatName f;
                   model.Size := size |}
            | s :: _ =>
                {| model.Duration := duration;
                   model.SampleRate :=
                     match Sscanf_d rt (sSampleRate s) with
                     | Some n => n | None => 0 end;
                   model.Channels := sChannels s;
                   model.Bitrate :=
                     match Sscanf_d rt (sBitRate s) with
                     | Some n => n | None => 0 end;
                   model.Codec_ := sCodecName s;
                   model.Format := fFormatName f;
                   model.Size := size |}
            end in
          ((Some meta, None), w1)
      end
  end.

(** [Pipeline.Run]: validate, probe input, transform, probe output. *)
Definition Run (p : Pipeline) (job : Job) (w : W)
    : (option model.ProcessingResult * option error) * W :=
  let start := Now rt w in
  match validateInput p job w with
  | (Some err, w1) => ((None, Some err), w1)
  | (None, w1) =>
      match probeFile p (InputPath job) w1 with
      | ((_, Some err), w2) =>
          ((None, Some (NewProcessingError "probe"
                          "failed to probe input file" (Some err))), w2)
      | ((inputMeta, None), w2) =>
          let w3 := report job progress.StageProbe 5 "input probed" w2 in
          match runFFmpeg p job w3 with
          | (Some err, w4) => ((None, Some err), w4)
          | (None, w4) =>
              let w5 := report job progress.StageEncode 90
                          "encoding complete" w4 in
              let '((probed, perr), w6) :=
                probeFile p (OutputPath job) w5 in
              let outputMeta :=
                match perr with
                | Some _ => Some model.zero_AudioMetadata
                | None => probed
                end in
              let w7 := report job progress.StageDone 100 "done" w6 in
              ((Some {| model.rInputPath := InputPath job;
                        model.rOutputPath := OutputPath job;
                        model.InputMeta := inputMeta;
                        model.OutputMeta := outputMeta;
                        model.rDuration := Now rt w7 - start;
                        model.ProcessedAt := Now rt w7 |}, None), w7)
          end
      end
  end.

End Pipeline.

Arguments Job : clear implicits.
Arguments Pipeline : clear implicits.
Arguments Reporter_t : clear implicits.

Section WorkerPool.

Context {W : Type} (rt : Runtime W).

Record WorkerPool := {
  wp_pipeline : Pipeline W;
  workers : Z
}.

Definition NewWorkerPool (p : Pipeline W) (workers : Z) : WorkerPool :=
  {| wp_pipeline := p;
     workers := if workers <=? 0 then 4 else workers |}.

(** [WorkerPool.processJob] *)
Definition processJob (wp : WorkerPool) (job : model.BatchJob)
    (reporter : Reporter_t W) (w : W)
    : (option model.ProcessingResult * option error) * W :=
  let opts :=
    match model.Options job with
    | None => model.DefaultProcessingOptions
    | Some o => o
    end in
  let pipelineJob :=
    {| ID := model.ID job;
       InputPath := model.InputPath job;
       OutputPath := model.OutputPath job;
       TempPath := "";
       Options := opts;
       Reporter := reporter |} in
  match Run rt (wp_pipeline wp) pipelineJob w with
  | ((_, Some err), w1) =>
      ((None, Some (Errorf ("job " ++ model.ID job ++ " failed")
                      (Some err))), w1)
  | ((result, None), w1) => ((result, None), w1)
  end.

(** *** [WorkerPool.Run] as a transition system

    [Run] returns the results channel at once and leaves a dispatcher
    goroutine behind, which starts one goroutine per admitted job.  A
    state holds the channels, the wait group and the program point of
    every goroutine; a step is one communication or one call. *)

(** Where the dispatcher goroutine stands: at the [select] of the
    [for job := range jobCh] loop; at the send of a cancellation result it
    has committed to; at [wg.Wait()]; past the deferred [close(results)]. *)
Inductive dispatcher_pc :=
| Ranging
| CancelSend (r : model.BatchResult)
| Waiting
| Finished.

(** Where a job goroutine stands: inside [processJob]; at
    [results <- ...]; at the deferred [<-semaphore]; at the deferred
    [wg.Done()]. *)
Inductive worker_pc :=
| Processing
| Sending (r : model.BatchResult)
| Releasing
| Finishing.

Record state := {
  world : W;
  jobCh : list model.BatchJob;            (* jobs still queued *)
  semaphore : Z;                          (* tokens held *)
  wg : Z;                                 (* wait group counter *)
  gos : list (model.BatchJob * worker_pc);(* live job goroutines *)
  cap : nat;                              (* cap(results) *)
  buffer : list model.BatchResult;        (* results: sent, not yet read *)
  closed : bool;                          (* results is closed *)
  dpc : dispatcher_pc;
  received : list model.BatchResult;      (* what the reader has read *)
  eof : bool                              (* the reader saw the close *)
}.

(** The state [Run] leaves behind when it returns: the dispatcher has
    filled and closed [jobCh], nothing else has happened. *)
Definition Run_pool (jobs : list model.BatchJob) (w : W) : state :=
  {| world := w; jobCh := jobs; semaphore := 0; wg := 0; gos := [];
     cap := List.length jobs; buffer := []; closed := false; dpc := Ranging;
     received := []; eof := false |}.

(** A stream made closed on the spot, with no goroutine behind it. *)
Definition closed_stream (w : W) : state :=
  {| world := w; jobCh := []; semaphore := 0; wg := 0; gos := [];
     cap := 0; buffer := []; closed := true; dpc := Finished;
     received := []; eof := false |}.

(** Steps of the dispatcher.  When the context is done and the semaphore
    has room both cases of the [select] can proceed, and Go picks either:
    [d_cancel] and [d_admit] are then both enabled. *)
Inductive dispatcher_step (wp : WorkerPool) : state -> state -> Prop :=
| d_cancel w j js sem n g c buf rcv e :
    ctx_Err rt w = Some e ->
    dispatcher_step wp
      {| world := w; jobCh := j :: js; semaphore := sem; wg := n;
         gos := g; cap := c; buffer := buf; closed := false;
         dpc := Ranging; received := rcv; eof := false |}
      {| world := w; jobCh := js; semaphore := sem; wg := n;
         gos := g; cap := c; buffer := buf; closed := false;
         dpc := CancelSend {| model.JobID := model.ID j;
                              model.Result := None;
                              model.Err := ctx_Err rt w |};
         received := rcv; eof := false |}
| d_cancel_send w js sem n g c buf rcv r :
    (List.length buf < c)%nat ->
    dispatcher_step wp
      {| world := w; jobCh := js; semaphore := sem; wg := n;
         gos := g; cap := c; buffer := buf; closed := false;
         dpc := CancelSend r; received := rcv; eof := false |}
      {| world := w; jobCh := js; semaphore := sem; wg := n;
         gos := g; cap := c; buffer := buf ++ [r]; closed := false;
         dpc := Ranging; received := rcv; eof := false |}
| d_admit w j js sem n g c buf rcv :
    sem < workers wp ->
    dispatcher_step wp
      {| world := w; jobCh := j :: js; semaphore := sem; wg := n;
         gos := g; cap := c; buffer := buf; closed := false;
         dpc := Ranging; received := rcv; eof := false |}
      {| world := w; jobCh := js; semaphore := sem + 1; wg := n + 1;
         gos := g ++ [(j, Processing)]; cap := c; buffer := buf;
         closed := false; dpc := Ranging; received := rcv; eof := false |}
| d_range_end w sem n g c buf rcv :
    dispatcher_step wp
      {| world := w; jobCh := []; semaphore := sem; wg := n;
         gos := g; cap := c; buffer := buf; closed := false;
         dpc := Ranging; received := rcv; eof := false |}
      {| world := w; jobCh := []; semaphore := sem; wg := n;
         gos := g; cap := c; buffer := buf; closed := false;
         dpc := Waiting; received := rcv; eof := false |}
| d_close w js sem g c buf rcv :
    dispatcher_step wp
      {| world := w; jobCh := js; semaphore := sem; wg := 0;
         gos := g; cap := c; buffer := buf; closed := false;
         dpc := Waiting; received := rcv; eof := false |}
      {| world := w; jobCh := js; semaphore := sem; wg := 0;
         gos := g; cap := c; buffer := buf; closed := true;
         dpc := Finished; received := rcv; eof := false |}.

(** Steps of the job goroutines. *)
Inductive worker_step (wp : WorkerPool) (reporter : Reporter_t W)
    : state -> state -> Prop :=
| w_process w js sem n g1 j g2 c buf cl d rcv ef :
    worker_step wp reporter
      {| world := w; jobCh := js; semaphore := sem; wg := n;
         gos := g1 ++ (j, Processing) :: g2; cap := c; buffer := buf;
         closed := cl; dpc := d; received := rcv; eof := ef |}
      {| world := snd (processJob wp j reporter w); jobCh := js;
         semaphore := sem; wg := n;
         gos := g1 ++
           (j, Sending
                 {| model.JobID := model.ID j;
                    model.Result := fst (fst (processJob wp j reporter w));
                    model.Err := snd (fst (processJob wp j reporter w)) |})
           :: g2;
         cap := c; buffer := buf; closed := cl; dpc := d;
         received := rcv; eof := ef |}
| w_send w js sem n g1 j r g2 c buf d rcv ef :
    (List.length buf < c)%nat ->
    worker_step wp reporter
      {| world := w; jobCh := js; semaphore := sem; wg := n;
         gos := g1 ++ (j, Sending r) :: g2; cap := c; buffer := buf;
         closed := false; dpc := d; received := rcv; eof := ef |}
      {| world := w; jobCh := js; semaphore := sem; wg := n;
         gos := g1 ++ (j, Releasing) :: g2; cap := c;
         buffer := buf ++ [r];
         closed := false; dpc := d; received := rcv; eof := ef |}
| w_release w js sem n g1 j g2 c buf cl d rcv ef :
    worker_step wp reporter
      {| world := w; jobCh := js; semaphore := sem; wg := n;
         gos := g1 ++ (j, Releasing) :: g2; cap := c; buffer := buf;
         closed := cl; dpc := d; received := rcv; eof := ef |}
      {| world := w; jobCh := js; semaphore := sem - 1; wg := n;
         gos := g1 ++ (j, Finishing) :: g2; cap := c; buffer := buf;
         closed := cl; dpc := d; received := rcv; eof := ef |}
| w_done w js sem n g1 j g2 c buf cl d rcv ef :
    worker_step wp reporter
      {| world := w; jobCh := js; semaphore := sem; wg := n;
         gos := g1 ++ (j, Finishing) :: g2; cap := c; buffer := buf;
         closed := cl; dpc := d; received := rcv; eof := ef |}
      {| world := w; jobCh := js; semaphore := sem; wg := n - 1;
         gos := g1 ++ g2; cap := c; buffer := buf;
         closed := cl; dpc := d; received := rcv; eof := ef |}.

(** Steps of the caller, who ranges over the returned stream. *)
Inductive reader_step : state -> state -> Prop :=
| r_recv w js sem n g c r buf cl d rcv :
    reader_step
      {| world := w; jobCh := js; semaphore := sem; wg := n; gos := g;
         cap := c; buffer := r :: buf; closed := cl; dpc := d;
         received := rcv; eof := false |}
      {| world := w; jobCh := js; semaphore := sem; wg := n; gos := g;
         cap := c; buffer := buf; closed := cl; dpc := d;
         received := rcv ++ [r]; eof := false |}
| r_eof w js sem n g c d rcv :
    reader_step
      {| world := w; jobCh := js; semaphore := sem; wg := n; gos := g;
         cap := c; buffer := []; closed := true; dpc := d;
         received := rcv; eof := false |}
      {| world := w; jobCh := js; semaphore := sem; wg := n; gos := g;
         cap := c; buffer := []; closed := true; dpc := d;
         received := rcv; eof := true |}.

(** The environment may change the world between two steps of the
    program: cancel the context, let the clock advance. *)
Inductive env_step : state -> state -> Prop :=
| e_world w w' js sem n g c buf cl d rcv ef :
    env_step
      {| world := w; jobCh := js; semaphore := sem; wg := n; gos := g;
         cap := c; buffer := buf; closed := cl; dpc := d;
         received := rcv; eof := ef |}
      {| world := w'; jobCh := js; semaphore := sem; wg := n; gos := g;
         cap := c; buffer := buf; closed := cl; dpc := d;
         received := rcv; eof := ef |}.

(** A step of the program: dispatcher, a job goroutine or the reader. *)
Inductive prog_step (wp : WorkerPool) (reporter : Reporter_t W)
    : state -> state -> Prop :=
| ps_dispatcher s s' : dispatcher_step wp s s' -> prog_step wp reporter s s'
| ps_worker s s' : worker_step wp reporter s s' -> prog_step wp reporter s s'
| ps_reader s s' : reader_step s s' -> prog_step wp reporter s s'.

(** States reachable from [s0] by program and environment steps. *)
Inductive reachable (wp : WorkerPool) (reporter : Reporter_t W)
    (s0 : state) : state -> Prop :=
| reach_init : reachable wp reporter s0 s0
| reach_prog s s' :
    reachable wp reporter s0 s -> prog_step wp reporter s s' ->
    reachable wp reporter s0 s'
| reach_env s s' :
    reachable wp reporter s0 s -> env_step s s' ->
    reachable wp reporter s0 s'.

(** Runs of the program alone, with their number of steps. *)
Inductive prog_steps (wp : WorkerPool) (reporter : Reporter_t W)
    : nat -> state -> state -> Prop :=
| steps_nil s : prog_steps wp reporter 0 s s
| steps_cons n s s' s'' :
    prog_step wp reporter s s' -> prog_steps wp reporter n s' s'' ->
    prog_steps wp reporter (S n) s s''.

End WorkerPool.

Arguments WorkerPool : clear implicits.
Arguments state : clear implicits.

End pipeline.

(* ================================================================= *)
(** ** pkg/retry *)

Module retry.

Import errors.

Record Config := {
  MaxAttempts : Z;
  Delay : Z;
  Multiplier : Q;
  MaxDelay : Z
}.

Definition DefaultConfig : Config :=
  {| MaxAttempts := 3;
     Delay := model.Second;
     Multiplier := 2 # 1;
     MaxDelay := 30 * model.Second |}.

(** [time.Duration(float64(delay) * m)]: the product, truncated toward
    zero.  The float product is exact, and so is this, when [delay] is
    below 2^53 in magnitude and [m] is a small power of two. *)
Definition scale (delay : Z) (m : Q) : Z :=
  let p := (inject_Z delay * m)%Q in
  Z.quot (Qnum p) (Zpos (Qden p)).

(** What [Do] did, in order: a call of [fn]; a backoff timer of [d] that
    ran to its end; a backoff of [d] cut short by the context. *)
Inductive event :=
| Attempt
| Wait (d : Z)
| Interrupted (d : Z).

Section Do.

Context {S : Type}.
Variable ctx_Err : S -> option error.
Variable select_Done_After : Z -> S -> bool * S.
Variable cfg : Config.
Variable fn : S -> option error * S.

(** The [for] loop of [Do], entered with the current values of [attempt],
    [delay] and [lastErr].  [fuel] bounds the iterations left; [Do] starts
    it at [MaxAttempts], which the loop condition never outlives. *)
Fixpoint loop (fuel : nat) (attempt delay : Z) (lastErr : option error)
    (s : S) : option error * S * list event :=
  match fuel with
  | O => (lastErr, s, [])
  | Datatypes.S fuel' =>
      if attempt <? MaxAttempts cfg then
        match ctx_Err s with
        | Some err => (Some err, s, [])
        | None =>
            let '(lastErr, s1) := fn s in
            match lastErr with
            | None => (None, s1, [Attempt])
            | Some _ =>
                if attempt =? MaxAttempts cfg - 1 then
                  (lastErr, s1, [Attempt])
                else
                  let '(done, s2) := select_Done_After delay s1 in
                  if done then
                    (ctx_Err s2, s2, [Attempt; Interrupted delay])
                  else
                    let delay' := scale delay (Multiplier cfg) in
                    let delay' :=
                      if delay' >? MaxDelay cfg then MaxDelay cfg
                      else delay' in
                    let '(r, s3, tr) :=
                      loop fuel' (attempt + 1) delay' lastErr s2 in
                    (r, s3, Attempt :: Wait delay :: tr)
            end
        end
      else (lastErr, s, [])
  end.

(** [retry.Do]: the returned error, the final state, the events. *)
Definition Do (s : S) : option error * S * list event :=
  loop (Z.to_nat (MaxAttempts cfg)) 0 (Delay cfg) None s.

End Do.

Definition attempts (tr : list event) : nat :=
  List.length
    (filter (fun e => match e with Attempt => true | _ => false end) tr).

Definition waits (tr : list event) : list Z :=
  flat_map (fun e => match e with Wait d => [d] | _ => [] end) tr.

Definition backoffs (tr : list event) : nat :=
  List.length
    (filter (fun e => match e with Attempt => false | _ => true end) tr).

End retry.

(* ================================================================= *)
(** ** application/usecase: AudioService *)

Module usecase.

Import errors goruntime.

Definition isAlnum (c : ascii) : bool :=
  let n := nat_of_ascii c in
  ((97 <=? n) && (n <=? 122) || (65 <=? n) && (n <=? 90)
   || (48 <=? n) && (n <=? 57))%nat.

Fixpoint map_bytes (f : ascii -> ascii) (s : string) : string :=
  match s with
  | EmptyString => EmptyString
  | String c s' => String (f c) (map_bytes f s')
  end.

(** [sanitize]: the last 20 bytes, every byte outside [a-zA-Z0-9] replaced
    by an underscore. *)
Definition sanitize (s : string) : string :=
  let n := String.length s in
  let s := if (20 <? n)%nat then substring (n - 20) 20 s else s in
  map_bytes (fun c => if isAlnum c then c else "_"%char) s.

Section AudioService.

Context {W : Type} (rt : Runtime W).

Record AudioService := {
  pipeline_ : pipeline.Pipeline W;
  workerPool : pipeline.WorkerPool W;
  storage : ports.StorageProvider W;
  reporter : pipeline.Reporter_t W;
  retryCfg : retry.Config
}.

Record Config := {
  Executor : option (ports.FFmpegExecutor W);
  Storage : option (ports.StorageProvider W);
  Reporter : pipeline.Reporter_t W;
  Workers : Z;
  RetryConfig : retry.Config
}.

(** [progress.NoopReporter] *)
Definition NoopReporter : progress.Update -> W -> W := fun _ w => w.

Definition NewAudioService (cfg : Config) : AudioService + error :=
  match Executor cfg with
  | None => inr (Errorf "FFmpegExecutor is required" None)
  | Some ex =>
      match Storage cfg with
      | None => inr (Errorf "StorageProvider is required" None)
      | Some st =>
          let reporter :=
            match Reporter cfg with
            | None => Some NoopReporter
            | Some r => Some r
            end in
          let retryCfg :=
            if retry.MaxAttempts (RetryConfig cfg) =? 0
            then retry.DefaultConfig else RetryConfig cfg in
          let workers := if Workers cfg <=? 0 then 4 else Workers cfg in
          let p := pipeline.NewPipeline ex st in
          let wp := pipeline.NewWorkerPool p workers in
          inl {| pipeline_ := p; workerPool := wp; storage := st;
                 reporter := reporter; retryCfg := retryCfg |}
      end
  end.

Definition generateJobID (input : string) (w : W) : string :=
  "job-" ++ fmt.d (Now rt w) ++ "-" ++ sanitize input.

(** [isValidationError] *)
Definition isValidationError (err : error) : bool :=
  As_ValidationError err.

(** The closure [ProcessAudio] hands to [retry.Do].  It runs the pipeline,
    stores the result in the captured variable [result] (the second
    component of the state) and returns nil for a validation error. *)
Definition attempt (s : AudioService) (job : pipeline.Job W)
    (st : W * option model.ProcessingResult)
    : option error * (W * option model.ProcessingResult) :=
  let '((result, runErr), w1) :=
    pipeline.Run rt (pipeline_ s) job (fst st) in
  match runErr with
  | Some e =>
      if isValidationError e then (None, (w1, result))
      else (runErr, (w1, result))
  | None => (runErr, (w1, result))
  end.

(** The options of a call: the defaults, then every option in order. *)
Definition applyOptions (opts : list ports.Option)
    : model.ProcessingOptions :=
  fold_left (fun o f => f o) opts model.DefaultProcessingOptions.

(** The world in which the job of a call is built: the context carries
    the timeout from here on.  The deferred [cancel()] releases the timer
    when the call is over; nothing in the call observes it. *)
Definition withTimeout (options : model.ProcessingOptions) (w : W) : W :=
  if model.Timeout options >? 0
  then ctx_WithTimeout rt (model.Timeout options) w else w.

Definition newJob (s : AudioService) (inputPath outputPath : string)
    (options : model.ProcessingOptions) (w : W) : pipeline.Job W :=
  {| pipeline.ID := generateJobID inputPath w;
     pipeline.InputPath := inputPath;
     pipeline.OutputPath := outputPath;
     pipeline.TempPath := "";
     pipeline.Options := options;
     pipeline.Reporter := reporter s |}.

(** [ctx.Err()] and the backoff [select], on the state of the closure:
    the world and the captured variable [result]. *)
Definition ctxErr (st : W * option model.ProcessingResult)
    : option error :=
  ctx_Err rt (fst st).

Definition backoff (d : Z) (st : W * option model.ProcessingResult)
    : bool * (W * option model.ProcessingResult) :=
  let '(done, w') := select_Done_After rt d (fst st) in
  (done, (w', snd st)).

(** [ProcessAudio] up to the return of [retry.Do]: the error [Do]
    returned, the world and the variable [result], and what [Do] did. *)
Definition ProcessAudio_retry (s : AudioService)
    (inputPath outputPath : string) (opts : list ports.Option) (w : W)
    : option error * (W * option model.ProcessingResult)
      * list retry.event :=
  let options := applyOptions opts in
  let w0 := withTimeout options w in
  let job := newJob s inputPath outputPath options w0 in
  retry.Do ctxErr backoff
    {| retry.MaxAttempts := model.MaxRetries options;
       retry.Delay := model.RetryDelay options;
       retry.Multiplier := 2 # 1;
       retry.MaxDelay := 30 * model.Second |}
    (attempt s job)
    (w0, None).

(** How a call ends: it returns its two results, or it panics. *)
Inductive outcome :=
| Returned (result : option model.ProcessingResult) (err : option error)
| Panicked (reason : string).

(** [AudioService.ProcessAudio].  After a nil error the code reads
    [result.Duration]; with [result] still nil that is a nil pointer
    dereference. *)
Definition ProcessAudio (s : AudioService)
    (inputPath outputPath : string) (opts : list ports.Option) (w : W)
    : outcome * W :=
  let '(err, (w1, result), _) :=
    ProcessAudio_retry s inputPath outputPath opts w in
  match err with
  | Some e => (Returned None (Some e), w1)
  | None =>
      match result with
      | None => (Panicked "nil pointer dereference", w1)
      | Some r => (Returned (Some r) None, w1)
      end
  end.

(** [AudioService.ProcessBatch]: the stream it returns, as the initial
    state of the pool's transition system. *)
Definition ProcessBatch (s : AudioService) (jobs : list model.BatchJob)
    (w : W) : pipeline.state W :=
  match jobs with
  | [] => pipeline.closed_stream w
  | _ => pipeline.Run_pool jobs w
  end.

(** [AudioService.ProbeAudio] *)
Definition ProbeAudio (s : AudioService) (inputPath : string) (w : W)
    : (option model.AudioMetadata * option error) * W :=
  let '((exists_, err), w1) := ports.Exists (storage s) inputPath w in
  match err with
  | Some e =>
      ((None, Some (NewProcessingError "probe" "failed to check file"
                      (Some e))), w1)
  | None =>
      if negb exists_ then
        ((None, Some (NewValidationError "inputPath" (VString inputPath)
                        "file does not exist")), w1)
      else pipeline.probeFile rt (pipeline_ s) inputPath w1
  end.

End AudioService.

Arguments AudioService : clear implicits.
Arguments Config : clear implicits.

End usecase.

(* ================================================================= *)
(** ** A world that keeps the progress updates *)

Module recording.

Import errors goruntime.

Section Recording.

Context {W : Type}.

(** The world [W] together with the updates reported so far. *)
Definition RW : Type := W * list progress.Update.

(** The reporter of a caller who keeps every update, in order. *)
Definition recorder (u : progress.Update) (w : RW) : RW :=
  (fst w, snd w ++ [u])%list.

(** Collaborators of [W] seen in [RW]: they leave the updates alone. *)
Definition storage (s : ports.StorageProvider W)
    : ports.StorageProvider RW :=
  {| ports.Exists := fun path w =>
       let '(r, w') := ports.Exists s path (fst w) in (r, (w', snd w)) |}.

Definition executor (e : ports.FFmpegExecutor W)
    : ports.FFmpegExecutor RW :=
  {| ports.Execute := fun args w =>
       let '(r, w') := ports.Execute e args (fst w) in (r, (w', snd w));
     ports.Probe := fun path w =>
       let '(r, w') := ports.Probe e path (fst w) in (r, (w', snd w)) |}.

Definition runtime (rt : Runtime W) : Runtime RW :=
  {| Now := fun w => Now rt (fst w);
     ctx_Err := fun w => ctx_Err rt (fst w);
     ctx_WithTimeout := fun d w => (ctx_WithTimeout rt d (fst w), snd w);
     select_Done_After := fun d w =>
       let '(r, w') := select_Done_After rt d (fst w) in (r, (w', snd w));
     json_Unmarshal := json_Unmarshal rt;
     Sscanf_d := Sscanf_d rt;
     Sscanf_f_seconds := Sscanf_f_seconds rt |}.

Definition pipeline_ (p : pipeline.Pipeline W) : pipeline.Pipeline RW :=
  pipeline.NewPipeline (executor (pipeline.executor p))
    (storage (pipeline.storage p)).

(** A job of [p] whose reporter is the recorder. *)
Definition job (id input output : string)
    (opts : model.ProcessingOptions) : pipeline.Job RW :=
  {| pipeline.ID := id; pipeline.InputPath := input;
     pipeline.OutputPath := output; pipeline.TempPath := "";
     pipeline.Options := opts; pipeline.Reporter := Some recorder |}.

End Recording.

Arguments RW : clear implicits.

End recording.

(* ================================================================= *)
(** ** testing/mocks: the test doubles, and a world to run them in *)

Module mocks.

Import errors goruntime.

(** The state of a test run: the ambient context, the clock, and the
    argument vectors [MockFFmpegExecutor] has recorded; [Probed] lists the
    paths handed to [Probe]. *)
Record World := {
  ctx : option error;
  clock : Z;
  ExecutedArgs : list (list string);
  Probed : list string
}.

Record MockFFmpegExecutor := {
  ExecuteFunc : option (list string -> option error);
  ProbeFunc : option (string -> list Byte.byte * option error)
}.

Record MockStorageProvider := {
  ExistsFunc : option (string -> bool * option error)
}.

Definition dq : string := String (ascii_of_nat 34) EmptyString.

Definition jstr (s : string) : string := dq ++ s ++ dq.

Definition jfield (k v : string) : string := jstr k ++ ":" ++ v.

(** [defaultProbeResponse]: the marshalled map, keys in sorted order. *)
Definition defaultProbeResponse : list Byte.byte :=
  list_byte_of_string
    ("{" ++ jfield "format"
       ("{" ++ jfield "bit_rate" (jstr "192000") ++ ","
            ++ jfield "duration" (jstr "120.5") ++ ","
            ++ jfield "format_name" (jstr "wav") ++ ","
            ++ jfield "size" (jstr "2880000") ++ "}") ++ ","
         ++ jfield "streams"
       ("[{" ++ jfield "bit_rate" (jstr "1411200") ++ ","
             ++ jfield "channels" "2" ++ ","
             ++ jfield "codec_name" (jstr "pcm_s16le") ++ ","
             ++ jfield "sample_rate" (jstr "44100") ++ "}]") ++ "}").

Definition mock_Execute (m : MockFFmpegExecutor) (args : list string)
    (w : World) : option error * World :=
  let w' := {| ctx := ctx w; clock := clock w;
               ExecutedArgs := ExecutedArgs w ++ [args];
               Probed := Probed w |} in
  match ExecuteFunc m with
  | Some f => (f args, w')
  | None => (None, w')
  end.

Definition mock_Probe (m : MockFFmpegExecutor) (inputPath : string)
    (w : World) : (list Byte.byte * option error) * World :=
  let w' := {| ctx := ctx w; clock := clock w;
               ExecutedArgs := ExecutedArgs w;
               Probed := Probed w ++ [inputPath] |} in
  match ProbeFunc m with
  | Some f => (f inputPath, w')
  | None => ((defaultProbeResponse, None), w')
  end.

Definition mock_Exists (m : MockStorageProvider) (path : string)
    (w : World) : (bool * option error) * World :=
  match ExistsFunc m with
  | Some f => (f path, w)
  | None => ((true, None), w)
  end.

Definition executor (m : MockFFmpegExecutor) : ports.FFmpegExecutor World :=
  {| ports.Execute := mock_Execute m; ports.Probe := mock_Probe m |}.

Definition storage (m : MockStorageProvider)
    : ports.StorageProvider World :=
  {| ports.Exists := mock_Exists m |}.

(** The decoded [defaultProbeResponse]. *)
Definition defaultProbeOutput : ffprobeOutput :=
  {| pFormat := {| fDuration := "120.5"; fBitRate := "192000";
                   fSize := "2880000"; fFormatName := "wav" |};
     pStreams := [ {| sCodecName := "pcm_s16le"; sSampleRate := "44100";
                      sChannels := 2; sBitRate := "1411200" |} ] |}.

(** A runtime for the test world.  The timers never hold a test up: a
    backoff adds its delay to the clock; the context is done only if the
    test cancelled it.  The decoders know the answers the doubles give. *)
Definition runtime : Runtime World :=
  {| Now := clock;
     ctx_Err := ctx;
     ctx_WithTimeout := fun _ w => w;
     select_Done_After := fun d w =>
       match ctx w with
       | Some _ => (true, w)
       | None => (false, {| ctx := ctx w; clock := clock w + d;
                            ExecutedArgs := ExecutedArgs w;
                            Probed := Probed w |})
       end;
     json_Unmarshal := fun data =>
       if list_eq_dec Byte.byte_eq_dec data defaultProbeResponse
       then inl defaultProbeOutput
       else inr (Foreign "invalid character");
     Sscanf_d := fun s =>
       option_map Z.of_int (NilZero.int_of_string s);
     Sscanf_f_seconds := fun s =>
       if String.eqb s "120.5" then Some 120500000000 else None |}.

Definition world0 : World :=
  {| ctx := None; clock := 0; ExecutedArgs := []; Probed := [] |}.

(** The same world, the context cancelled before the call. *)
Definition cancelled0 : World :=
  {| ctx := Some Canceled; clock := 0; ExecutedArgs := []; Probed := [] |}.

(** The doubles as a test leaves them: no function field set. *)
Definition plainExecutor : MockFFmpegExecutor :=
  {| ExecuteFunc := None; ProbeFunc := None |}.

Definition plainStorage : MockStorageProvider :=
  {| ExistsFunc := None |}.

(** An executor whose probe fails on one path only. *)
Definition probeFailsOn (path : string) : MockFFmpegExecutor :=
  {| ExecuteFunc := None;
     ProbeFunc := Some (fun p =>
       if String.eqb p path
       then ([], Some (NewFFmpegError "ffprobe execution failed"
                         [] 1 "" None))
       else (defaultProbeResponse, None)) |}.

Definition plainPipeline : pipeline.Pipeline World :=
  pipeline.NewPipeline (executor plainExecutor) (storage plainStorage).

Definition plainService : usecase.AudioService World :=
  {| usecase.pipeline_ := plainPipeline;
     usecase.workerPool := pipeline.NewWorkerPool plainPipeline 4;
     usecase.storage := storage plainStorage;
     usecase.reporter := Some usecase.NoopReporter;
     usecase.retryCfg := retry.DefaultConfig |}.

(** An executor whose ffmpeg always exits with status 1. *)
Definition executeFails : MockFFmpegExecutor :=
  {| ExecuteFunc := Some (fun args =>
       Some (NewFFmpegError "ffmpeg execution failed" args 1 "" None));
     ProbeFunc := None |}.

Definition failingService : usecase.AudioService World :=
  {| usecase.pipeline_ :=
       pipeline.NewPipeline (executor executeFails) (storage plainStorage);
     usecase.workerPool :=
       pipeline.NewWorkerPool
         (pipeline.NewPipeline (executor executeFails)
            (storage plainStorage)) 4;
     usecase.storage := storage plainStorage;
     usecase.reporter := Some usecase.NoopReporter;
     usecase.retryCfg := retry.DefaultConfig |}.

(** A store that has no file. *)
Definition emptyStorage : MockStorageProvider :=
  {| ExistsFunc := Some (fun _ => (false, None)) |}.

(** A batch job that asks for a negative bitrate. *)
Definition jobBadBitrate : model.BatchJob :=
  {| model.ID := "b"; model.InputPath := "in.wav";
     model.OutputPath := "out.opus";
     model.Options :=
       Some (ports.WithBitrate (-1) model.DefaultProcessingOptions) |}.

(** A pipeline job for a codec the pipeline does not know. *)
Definition jobFlac : pipeline.Job World :=
  {| pipeline.ID := "j"; pipeline.InputPath := "in.wav";
     pipeline.OutputPath := "out.flac"; pipeline.TempPath := "";
     pipeline.Options :=
       ports.WithCodec "flac" model.DefaultProcessingOptions;
     pipeline.Reporter := None |}.

(** A pipeline job with no input path. *)
Definition jobNoInput : pipeline.Job World :=
  {| pipeline.ID := "j"; pipeline.InputPath := "";
     pipeline.OutputPath := "out.opus"; pipeline.TempPath := "";
     pipeline.Options := model.DefaultProcessingOptions;
     pipeline.Reporter := None |}.

(** The configuration a test hands to [NewAudioService]: the two doubles,
    everything else left at its zero value. *)
Definition plainConfig : usecase.Config World :=
  {| usecase.Executor := Some (executor plainExecutor);
     usecase.Storage := Some (storage plainStorage);
     usecase.Reporter := None;
     usecase.Workers := 0;
     usecase.RetryConfig :=
       {| retry.MaxAttempts := 0; retry.Delay := 0;
          retry.Multiplier := 0 # 1; retry.MaxDelay := 0 |} |}.

(** A batch job with no options of its own. *)
Definition jobA : model.BatchJob :=
  {| model.ID := "a"; model.InputPath := "in.wav";
     model.OutputPath := "out.opus"; model.Options := None |}.

(** A unit of work that plays a script: the outcomes of its successive
    calls; the state is what is left of the script. *)
Definition scripted (s : list (option error))
    : option error * list (option error) :=
  match s with
  | [] => (None, [])
  | o :: s' => (o, s')
  end.

(** Two failures of the external tool, then success. *)
Definition failTwice : list (option error) :=
  [Some (Foreign "exit status 1"); Some (Foreign "exit status 1"); None].

(** Three attempts, one second, doubling; [MaxDelay] not set. *)
Definition noCapConfig : retry.Config :=
  {| retry.MaxAttempts := 3; retry.Delay := model.Second;
     retry.Multiplier := 2 # 1; retry.MaxDelay := 0 |}.

Definition neverDone (s : list (option error)) : option error := None.

(** A unit of work that fails every time; the state counts its calls. *)
Definition alwaysFails (n : nat) : option error * nat :=
  (Some (Foreign "exit status 1"), Datatypes.S n).

Definition liveContext (n : nat) : option error := None.

Definition doneContext (n : nat) : option error := Some Canceled.

Definition timerWins (d : Z) (n : nat) : bool * nat := (false, n).

Definition timerFires (d : Z) (s : list (option error))
    : bool * list (option error) := (false, s).

End mocks.

(* ================================================================= *)
(** ** Reading an argument vector *)

(** The token that follows [-b:a], if the vector has one. *)
Fixpoint bitrate_token (args : list string) : option string :=
  match args with
  | [] => None
  | a :: rest =>
      if String.eqb a "-b:a" then hd_error rest else bitrate_token rest
  end.

(** The filter chain as the specification words it: the filters that are
    enabled, in the order highpass, lowpass, loudness normalization. *)
Definition highpass_filter (opts : model.ProcessingOptions) : string :=
  "highpass=f=" ++ fmt.d (model.HighpassFreq opts).

Definition lowpass_filter (opts : model.ProcessingOptions) : string :=
  "lowpass=f=" ++ fmt.d (model.LowpassFreq opts).

Definition loudnorm_filter (opts : model.ProcessingOptions) : string :=
  "loudnorm=I=" ++ fmt.f1 (model.LoudnessTarget opts)
    ++ ":TP=" ++ fmt.f1 (model.TruePeakLimit opts)
    ++ ":LRA=" ++ fmt.f1 (model.LoudnessRange opts).

Definition enabled_filters (opts : model.ProcessingOptions)
    : list string :=
  List.app
    (if model.HighpassEnabled opts then [highpass_filter opts] else [])
    (List.app
       (if model.LowpassEnabled opts then [lowpass_filter opts] else [])
       (if model.NormalizationEnabled opts
        then [loudnorm_filter opts] else [])).

(** The builders a program can make: the new one, and what the four
    adders make of a builder. *)
Inductive built : ffmpeg.FilterChainBuilder -> Prop :=
| built_new : built ffmpeg.NewFilterChainBuilder
| built_highpass f b : built b -> built (ffmpeg.AddHighpass f b)
| built_lowpass f b : built b -> built (ffmpeg.AddLowpass f b)
| built_loudnorm i tp lra b :
    built b -> built (ffmpeg.AddLoudnorm i tp lra b)
| built_resample hz b : built b -> built (ffmpeg.AddResample hz b).

(** Reporting a list of updates, one after the other, with no receive in
    between. *)
Definition report_all (us : list progress.Update) (ch : progress.chan)
    : progress.chan :=
  fold_left (fun c u => progress.ChannelReporter_Report u c) us ch.

(** Is some filter enabled? *)
Definition any_filter (opts : model.ProcessingOptions) : bool :=
  model.HighpassEnabled opts || model.LowpassEnabled opts
  || model.NormalizationEnabled opts.

(** The codecs [buildCodecArgs] knows. *)
Definition recognized (c : model.Codec) : Prop :=
  c = model.CodecOpus \/ c = model.CodecAAC \/ c = model.CodecMP3.

Section ValidateSpec.

Context {W : Type}.
Variables (p : pipeline.Pipeline W) (job : pipeline.Job W) (w : W).

(** What the storage collaborator answers for the input of [job]. *)
Definition answer : bool * option errors.error :=
  fst (ports.Exists (pipeline.storage p) (pipeline.InputPath job) w).

(** The request is bad: a path is empty, the input is not there, or the
    bitrate or the sample rate is not positive. *)
Definition bad_request : Prop :=
  pipeline.InputPath job = "" \/ pipeline.OutputPath job = ""
  \/ fst answer = false
  \/ model.oBitrate (pipeline.Options job) <= 0
  \/ model.oSampleRate (pipeline.Options job) <= 0.

(** The existence check is made, and it returns an error. *)
Definition check_failed : Prop :=
  pipeline.InputPath job <> "" /\ pipeline.OutputPath job <> ""
  /\ snd answer <> None.

(** [validateInput] returns an error of the given kind. *)
Definition fails_with (kind : errors.error -> bool) : Prop :=
  exists e,
    fst (pipeline.validateInput p job w) = Some e /\ kind e = true.

End ValidateSpec.

(** The backoff waits of a run that fails twice, as the specification
    words them: the base delay, then its double, each capped. *)
Definition capped_waits (u maxDelay : Z) : list Z :=
  [Z.min u maxDelay; Z.min (2 * u) maxDelay].

(** The checkpoints of a pipeline run, as updates of job [id]. *)
Definition checkpoint (id : string) (stage : progress.Stage) (pct : Z)
    (msg : string) : progress.Update :=
  {| progress.JobID := id; progress.Stage_ := stage;
     progress.Percent := pct; progress.Message := msg |}.

Definition cp_probed (id : string) : progress.Update :=
  checkpoint id progress.StageProbe 5 "input probed".

Definition cp_started (id : string) : progress.Update :=
  checkpoint id progress.StageEncode 20 "encoding started".

Definition cp_encoded (id : string) : progress.Update :=
  checkpoint id progress.StageEncode 90 "encoding complete".

Definition cp_done (id : string) : progress.Update :=
  checkpoint id progress.StageDone 100 "done".

(** A list of integers that never goes down. *)
Fixpoint nondecreasing (l : list Z) : Prop :=
  match l with
  | [] => True
  | x :: l' =>
      match l' with
      | [] => True
      | y :: _ => x <= y /\ nondecreasing l'
      end
  end.

(** Is the goroutine inside [processJob]? *)
Definition inside (x : model.BatchJob * pipeline.worker_pc) : bool :=
  match snd x with
  | pipeline.Processing => true
  | _ => false
  end.



(** The pipeline job [processJob] builds for a batch job. *)
Definition pipelineJobOf {W : Type} (job : model.BatchJob)
    (reporter : pipeline.Reporter_t W) : pipeline.Job W :=
  {| pipeline.ID := model.ID job;
     pipeline.InputPath := model.InputPath job;
     pipeline.OutputPath := model.OutputPath job;
     pipeline.TempPath := "";
     pipeline.Options :=
       match model.Options job with
       | None => model.DefaultProcessingOptions
       | Some o => o
       end;
     pipeline.Reporter := reporter |}.



(** A shape a trace of [retry.Do] can have: attempts, each but the last
    followed by a full wait; the last may be followed by an interrupted
    wait. *)
Inductive alternating : list retry.event -> Prop :=
| alt_nil : alternating []
| alt_last : alternating [retry.Attempt]
| alt_interrupted d : alternating [retry.Attempt; retry.Interrupted d]
| alt_wait d tr :
    alternating tr ->
    alternating (retry.Attempt :: retry.Wait d :: tr).

(** The delays of the backoffs of a trace, completed or not. *)
Definition delays (tr : list retry.event) : list Z :=
  flat_map
    (fun e => match e with
              | retry.Wait d => [d]
              | retry.Interrupted d => [d]
              | retry.Attempt => []
              end) tr.

(** A byte [sanitize] lets through or produces. *)
Definition clean_byte (c : ascii) : bool :=
  usecase.isAlnum c || Ascii.eqb c "_"%char.

Fixpoint all_bytes (f : ascii -> bool) (s : string) : bool :=
  match s with
  | EmptyString => true
  | String c s' => f c && all_bytes f s'
  end.

(* ================================================================= *)
(** ** Accounting for the jobs of a batch *)

Section PoolAccounting.

Import pipeline.

Context {W : Type}.

(** The job a goroutine still owes a result for, if it has not put its
    result on the stream yet. *)
Definition owes (x : model.BatchJob * worker_pc) : list string :=
  match snd x with
  | Processing => [model.ID (fst x)]
  | Sending r => [model.JobID r]
  | _ => []
  end.

(** The job whose cancellation result the dispatcher is about to send. *)
Definition committed (d : dispatcher_pc) : list string :=
  match d with
  | CancelSend r => [model.JobID r]
  | _ => []
  end.

(** Every job of a batch is in exactly one place: read by the caller, in
    the buffer of the stream, in the hands of the dispatcher or of a job
    goroutine, or still queued. *)
Definition accounted (st : state W) : list string :=
  List.app (map model.JobID (received st))
    (List.app (map model.JobID (buffer st))
       (List.app (committed (dpc st))
          (List.app (flat_map owes (gos st))
             (map model.ID (jobCh st))))).

(** Does the goroutine hold a token of the semaphore? *)
Definition holds (x : model.BatchJob * worker_pc) : bool :=
  match snd x with
  | Finishing => false
  | _ => true
  end.

Definition holders (g : list (model.BatchJob * worker_pc)) : Z :=
  Z.of_nat (List.length (filter holds g)).

Definition occ (id : string) (l : list string) : nat :=
  count_occ string_dec l id.

(** What every reachable state of a batch over [jobs] satisfies. *)
Definition invariant (wp : WorkerPool W) (jobs : list model.BatchJob)
    (st : state W) : Prop :=
  (forall id, occ id (accounted st) = occ id (map model.ID jobs))
  /\ cap st = List.length jobs
  /\ semaphore st = holders (gos st)
  /\ semaphore st <= workers wp
  /\ wg st = Z.of_nat (List.length (gos st))
  /\ match dpc st with
     | Ranging | CancelSend _ => closed st = false
     | Waiting => jobCh st = [] /\ closed st = false
     | Finished => jobCh st = [] /\ gos st = [] /\ closed st = true
     end
  /\ (eof st = true -> closed st = true /\ buffer st = []).

(** How much is left to do: every program step makes it smaller. *)
Definition go_weight (x : model.BatchJob * worker_pc) : nat :=
  match snd x with
  | Processing => 5
  | Sending _ => 4
  | Releasing => 2
  | Finishing => 1
  end.

Definition dpc_weight (d : dispatcher_pc) : nat :=
  match d with
  | Ranging => 3
  | CancelSend _ => 5
  | Waiting => 2
  | Finished => 0
  end.

Definition measure (st : state W) : nat :=
  (6 * List.length (jobCh st) + list_sum (map go_weight (gos st))
   + List.length (buffer st) + dpc_weight (dpc st)
   + (if eof st then 0 else 1))%nat.

End PoolAccounting.

(* ================================================================= *)
(** * Properties *)

(** ** Formatting *)

Example f1_samples :
  (fmt.f1 (-16 # 1), fmt.f1 (7 # 1), fmt.f1 (-1 # 32), fmt.f1 (1 # 4),
   fmt.f1 (3 # 4), fmt.f1 (-47 # 2), fmt.f1 (-1 # 16))
  = ("-16.0", "7.0", "-0.0", "0.2", "0.8", "-23.5", "-0.1").
Proof. vm_compute. reflexivity. Qed.

Example d_samples :
  (fmt.d 0, fmt.d 80, fmt.d (-1), fmt.d 128) = ("0", "80", "-1", "128").
Proof. reflexivity. Qed.

Lemma d_zero : fmt.d 0 = "0".
Proof. reflexivity. Qed.

(** ** The filter chain *)

Section FilterChain.

Import model.

(** The builder of [runFFmpeg] ends up holding the enabled filters. *)
Lemma filterChain_filters (opts : ProcessingOptions) :
  ffmpeg.filters (pipeline.filterChain opts) = enabled_filters opts.
Proof.
  unfold pipeline.filterChain, enabled_filters.
  destruct (HighpassEnabled opts), (LowpassEnabled opts),
    (NormalizationEnabled opts); reflexivity.
Qed.

(** C9.  With highpass on at 80 Hz, lowpass off and normalization on at
    -16.0 LUFS (true peak -1.0, range 7.0) the filter chain is exactly
    [highpass=f=80,loudnorm=I=-16.0:TP=-1.0:LRA=7.0]; and for all options
    the chain is the comma-joined list of the enabled filters in the order
    highpass, lowpass, loudnorm, a disabled filter contributing nothing. *)
Theorem filter_chain_fixed_order :
  (forall opts : ProcessingOptions,
      HighpassEnabled opts = true -> HighpassFreq opts = 80 ->
      LowpassEnabled opts = false ->
      NormalizationEnabled opts = true ->
      LoudnessTarget opts = (-16 # 1)%Q ->
      TruePeakLimit opts = (-1 # 1)%Q ->
      LoudnessRange opts = (7 # 1)%Q ->
      ffmpeg.Build (pipeline.filterChain opts)
      = "highpass=f=80,loudnorm=I=-16.0:TP=-1.0:LRA=7.0")
  /\
  (forall opts : ProcessingOptions,
      ffmpeg.Build (pipeline.filterChain opts)
      = String.concat "," (enabled_filters opts)).
Proof.
  split.
  - intros opts Hh Hf Hl Hn Ht Hp Hr.
    unfold ffmpeg.Build. rewrite filterChain_filters.
    unfold enabled_filters, highpass_filter, loudnorm_filter.
    rewrite Hh, Hf, Hl, Hn, Ht, Hp, Hr. vm_compute. reflexivity.
  - intros opts. unfold ffmpeg.Build.
    now rewrite filterChain_filters.
Qed.

(** The scenario of C9 through the functional options of a call. *)
Lemma filter_chain_fixed_order_witness :
  ffmpeg.Build
    (pipeline.filterChain
       (usecase.applyOptions
          [ports.WithHighpass 80; ports.WithLoudnessTarget (-16 # 1)]))
  = "highpass=f=80,loudnorm=I=-16.0:TP=-1.0:LRA=7.0".
Proof.
  apply (proj1 filter_chain_fixed_order); reflexivity.
Defined.

End FilterChain.

(** ** Codec arguments *)

Section CodecArgs.

Import model.

(** Every recognized codec gets an argument vector, and a [-b:a] token in
    it is the kilobit quotient; only AAC and MP3 in VBR mode have none. *)
Lemma buildCodecArgs_token (opts : ProcessingOptions) :
  recognized (oCodec opts) ->
  exists args,
    pipeline.buildCodecArgs opts = inl args /\
    ((bitrate_token args
      = Some (fmt.d (Z.quot (oBitrate opts) 1000) ++ "k"))
     \/ (bitrate_token args = None
         /\ oBitrateMode opts = BitrateModeVBR
         /\ (oCodec opts = CodecAAC \/ oCodec opts = CodecMP3))).
Proof.
  intros Hc. unfold pipeline.buildCodecArgs.
  destruct (String.eqb (oBitrateMode opts) BitrateModeVBR) eqn:Hm;
    [apply String.eqb_eq in Hm|];
    destruct Hc as [Hc | [Hc | Hc]]; rewrite Hc; cbn;
    eexists; split; try reflexivity; cbn; auto.
Qed.

(** C10.  For a recognized codec and a positive bitrate, the token
    [buildCodecArgs] puts after [-b:a] is the integer quotient of the
    bitrate by 1000, truncated, followed by [k] (AAC and MP3 in VBR mode
    emit no such token); and a bitrate from 1 to 999 passes
    [validateInput] although its token is [0k]. *)
Theorem bitrate_token_truncates :
  (forall opts : ProcessingOptions,
      recognized (oCodec opts) -> 0 < oBitrate opts ->
      exists args,
        pipeline.buildCodecArgs opts = inl args /\
        ((bitrate_token args
          = Some (fmt.d (Z.quot (oBitrate opts) 1000) ++ "k"))
         \/ (bitrate_token args = None
             /\ oBitrateMode opts = BitrateModeVBR
             /\ (oCodec opts = CodecAAC \/ oCodec opts = CodecMP3))))
  /\
  (forall (W : Type) (p : pipeline.Pipeline W) (job : pipeline.Job W)
          (w w1 : W),
      let opts := pipeline.Options job in
      recognized (oCodec opts) ->
      1 <= oBitrate opts <= 999 ->
      pipeline.InputPath job <> "" ->
      pipeline.OutputPath job <> "" ->
      ports.Exists (pipeline.storage p) (pipeline.InputPath job) w
        = ((true, None), w1) ->
      0 < oSampleRate opts ->
      pipeline.validateInput p job w = (None, w1) /\
      exists args,
        pipeline.buildCodecArgs opts = inl args /\
        forall t, bitrate_token args = Some t -> t = "0k").
Proof.
  split.
  - intros opts Hc _. now apply buildCodecArgs_token.
  - intros W p job w w1 opts Hc Hb Hi Ho He Hs. split.
    + unfold pipeline.validateInput.
      apply String.eqb_neq in Hi. apply String.eqb_neq in Ho.
      rewrite Hi, Ho, He. cbn.
      fold opts.
      destruct (Z.leb_spec (oBitrate opts) 0); [lia|].
      destruct (Z.leb_spec (oSampleRate opts) 0); [lia|].
      reflexivity.
    + destruct (buildCodecArgs_token opts Hc) as (args & Ha & Ht).
      exists args. split; [exact Ha|].
      intros t Hsome.
      assert (Hq : Z.quot (oBitrate opts) 1000 = 0)
        by (apply Z.quot_small; lia).
      rewrite Hq in Ht.
      destruct Ht as [Ht | (Ht & _)]; rewrite Ht in Hsome.
      * injection Hsome as <-. reflexivity.
      * discriminate.
Qed.

End CodecArgs.

(** Bitrate 999 with the default codec: accepted, and sent as [0k]. *)
Lemma bitrate_token_truncates_witness :
  pipeline.validateInput mocks.plainPipeline
    {| pipeline.ID := "j"; pipeline.InputPath := "in.wav";
       pipeline.OutputPath := "out.opus"; pipeline.TempPath := "";
       pipeline.Options := ports.WithBitrate 999
                             model.DefaultProcessingOptions;
       pipeline.Reporter := None |} mocks.world0
  = (None, mocks.world0)
  /\ exists args,
      pipeline.buildCodecArgs
        (ports.WithBitrate 999 model.DefaultProcessingOptions) = inl args
      /\ forall t, bitrate_token args = Some t -> t = "0k".
Proof.
  apply (proj2 bitrate_token_truncates mocks.World mocks.plainPipeline
           {| pipeline.ID := "j"; pipeline.InputPath := "in.wav";
              pipeline.OutputPath := "out.opus"; pipeline.TempPath := "";
              pipeline.Options := ports.WithBitrate 999
                                    model.DefaultProcessingOptions;
              pipeline.Reporter := None |} mocks.world0 mocks.world0).
  - left. reflexivity.
  - simpl. lia.
  - discriminate.
  - discriminate.
  - reflexivity.
  - simpl. lia.
Defined.

Example codec_args_999 :
  pipeline.buildCodecArgs
    (ports.WithBitrate 999 model.DefaultProcessingOptions)
  = inl ["-c:a"; "libopus"; "-vbr"; "off"; "-b:a"; "0k"].
Proof. reflexivity. Qed.

(** ** Validation *)

Section Validate.

Context {W : Type}.
Variables (p : pipeline.Pipeline W) (job : pipeline.Job W) (w : W).

(** C8.  When the existence check is made and returns an error,
    [validateInput] returns a processing error and not a validation error.
    In every other case it returns a validation error exactly when the
    request is bad: the input path is empty, the output path is empty, the
    input is not in the store, the bitrate is not positive or the sample
    rate is not positive. *)
Theorem validateInput_kinds :
  (check_failed p job w ->
   fails_with p job w errors.is_processing
   /\ ~ fails_with p job w errors.is_validation)
  /\ (~ check_failed p job w ->
      (fails_with p job w errors.is_validation <-> bad_request p job w)).
Proof.
  unfold check_failed, fails_with, bad_request, answer,
    pipeline.validateInput.
  destruct (String.eqb_spec (pipeline.InputPath job) "") as [Hi | Hi].
  { split; [intros (H & _); contradiction|].
    intros _. split; [auto|]. intros _. cbn.
    eexists; split; reflexivity. }
  destruct (String.eqb_spec (pipeline.OutputPath job) "") as [Ho | Ho].
  { split; [intros (_ & H & _); contradiction|].
    intros _. split; [auto|]. intros _. cbn.
    eexists; split; reflexivity. }
  destruct (ports.Exists (pipeline.storage p) (pipeline.InputPath job) w)
    as [[ex err] w1]. cbn [fst snd].
  destruct err as [e |].
  { split.
    - intros _. cbn. split.
      + eexists; split; reflexivity.
      + intros (e' & He' & Hk). injection He' as <-. discriminate.
    - intros H. exfalso. apply H. repeat split; auto. discriminate. }
  split; [intros (_ & _ & H); contradiction | intros _].
  destruct ex; cbn.
  2:{ split; intros; auto. eexists; split; reflexivity. }
  destruct (Z.leb_spec (model.oBitrate (pipeline.Options job)) 0).
  { cbn. split; intros; auto. eexists; split; reflexivity. }
  destruct (Z.leb_spec (model.oSampleRate (pipeline.Options job)) 0).
  { cbn. split; intros; auto 6. eexists; split; reflexivity. }
  cbn. split.
  - intros (e & He & _). discriminate.
  - intros [? | [? | [? | [? | ?]]]];
      try contradiction; try discriminate; lia.
Qed.

End Validate.

(** A job whose bitrate is zero, in a store that has its input: refused
    as a bad request. *)
Lemma validateInput_kinds_witness :
  fails_with mocks.plainPipeline
    {| pipeline.ID := "j"; pipeline.InputPath := "in.wav";
       pipeline.OutputPath := "out.opus"; pipeline.TempPath := "";
       pipeline.Options := ports.WithBitrate 0
                             model.DefaultProcessingOptions;
       pipeline.Reporter := None |} mocks.world0 errors.is_validation.
Proof.
  apply (proj2 (validateInput_kinds mocks.plainPipeline _ mocks.world0)).
  - intros (_ & _ & H). apply H. reflexivity.
  - right. right. right. left. simpl. lia.
Defined.

(** A store whose existence check fails: a processing error, even for a
    job whose bitrate is zero. *)
Example validateInput_storage_fault :
  pipeline.validateInput
    (pipeline.NewPipeline (mocks.executor mocks.plainExecutor)
       (mocks.storage
          {| mocks.ExistsFunc :=
               Some (fun _ => (false, Some (errors.Foreign "EIO"))) |}))
    {| pipeline.ID := "j"; pipeline.InputPath := "in.wav";
       pipeline.OutputPath := "out.opus"; pipeline.TempPath := "";
       pipeline.Options := ports.WithBitrate 0
                             model.DefaultProcessingOptions;
       pipeline.Reporter := None |} mocks.world0
  = (Some (errors.NewProcessingError "validate"
             "failed to check input file" (Some (errors.Foreign "EIO"))),
     mocks.world0).
Proof. reflexivity. Qed.

(** ** The pipeline run *)

(** The test doubles at work: a job with the default options. *)
Example plain_run_args :
  pipeline.ffmpegArgs
    {| pipeline.ID := "j"; pipeline.InputPath := "in.wav";
       pipeline.OutputPath := "out.opus"; pipeline.TempPath := "";
       pipeline.Options := model.DefaultProcessingOptions;
       pipeline.Reporter := @None (progress.Update -> mocks.World
                                   -> mocks.World) |}
  = inl ["-y"; "-i"; "in.wav"; "-af"; "loudnorm=I=-23.0:TP=-1.0:LRA=7.0";
         "-ar"; "48000"; "-c:a"; "libopus"; "-vbr"; "off"; "-b:a"; "128k";
         "out.opus"].
Proof. vm_compute. reflexivity. Qed.

Example plain_probe :
  fst (pipeline.probeFile mocks.runtime mocks.plainPipeline "in.wav"
         mocks.world0)
  = (Some {| model.Duration := 120500000000; model.SampleRate := 44100;
             model.Channels := 2; model.Bitrate := 1411200;
             model.Codec_ := "pcm_s16le"; model.Format := "wav";
             model.Size := 2880000 |}, None).
Proof. vm_compute. reflexivity. Qed.

Example sanitize_sample :
  usecase.sanitize "/data/in/some long file-name.wav"
  = "e_long_file_name_wav".
Proof. vm_compute. reflexivity. Qed.

Section PipelineRun.

Context {W : Type} (rt : goruntime.Runtime W).
Variables (p : pipeline.Pipeline W) (job : pipeline.Job W).

(** An error of [Run] never comes with a result. *)
Lemma Run_error_no_result (w w' : W) res e :
  pipeline.Run rt p job w = ((res, Some e), w') -> res = None.
Proof.
  unfold pipeline.Run.
  destruct (pipeline.validateInput p job w) as [[ev |] w1];
    [intros H; now inversion H|].
  destruct (pipeline.probeFile rt p (pipeline.InputPath job) w1)
    as [[im [ep |]] w2]; [intros H; now inversion H|].
  destruct (pipeline.runFFmpeg p job _) as [[ef |] w4];
    [intros H; now inversion H|].
  destruct (pipeline.probeFile rt p (pipeline.OutputPath job) _)
    as [[om eo] w6].
  intros H; inversion H.
Qed.

(** C5.  When validation, the input probe and the transformation succeed
    and the probe of the output file fails, [Run] returns a result and no
    error, and the result's [OutputMeta] is the zero-value metadata. *)
Theorem output_probe_failure_is_lenient
    (w w1 w2 w4 w6 : W) inputMeta probed (e : errors.error) :
  pipeline.validateInput p job w = (None, w1) ->
  pipeline.probeFile rt p (pipeline.InputPath job) w1
    = ((inputMeta, None), w2) ->
  pipeline.runFFmpeg p job
    (pipeline.report job progress.StageProbe 5 "input probed" w2)
    = (None, w4) ->
  pipeline.probeFile rt p (pipeline.OutputPath job)
    (pipeline.report job progress.StageEncode 90 "encoding complete" w4)
    = ((probed, Some e), w6) ->
  exists r,
    pipeline.Run rt p job w
      = ((Some r, None),
         pipeline.report job progress.StageDone 100 "done" w6)
    /\ model.OutputMeta r = Some model.zero_AudioMetadata
    /\ model.InputMeta r = inputMeta
    /\ model.rInputPath r = pipeline.InputPath job
    /\ model.rOutputPath r = pipeline.OutputPath job.
Proof.
  intros Hv Hi Hf Ho. unfold pipeline.Run.
  rewrite Hv, Hi, Hf, Ho.
  eexists. split; [reflexivity|]. cbn. auto.
Qed.

End PipelineRun.

(** A run in the test world whose executor cannot probe the output. *)
Lemma output_probe_failure_is_lenient_witness :
  exists r w',
    pipeline.Run mocks.runtime
      (pipeline.NewPipeline
         (mocks.executor (mocks.probeFailsOn "out.opus"))
         (mocks.storage mocks.plainStorage))
      {| pipeline.ID := "j"; pipeline.InputPath := "in.wav";
         pipeline.OutputPath := "out.opus"; pipeline.TempPath := "";
         pipeline.Options := model.DefaultProcessingOptions;
         pipeline.Reporter := None |} mocks.world0
    = ((Some r, None), w')
    /\ model.OutputMeta r = Some model.zero_AudioMetadata.
Proof.
  edestruct (output_probe_failure_is_lenient mocks.runtime
      (pipeline.NewPipeline
         (mocks.executor (mocks.probeFailsOn "out.opus"))
         (mocks.storage mocks.plainStorage))
      {| pipeline.ID := "j"; pipeline.InputPath := "in.wav";
         pipeline.OutputPath := "out.opus"; pipeline.TempPath := "";
         pipeline.Options := model.DefaultProcessingOptions;
         pipeline.Reporter := None |} mocks.world0)
    as (r & Hr & Hm & _);
    [ reflexivity | vm_compute; reflexivity | vm_compute; reflexivity
    | vm_compute; reflexivity | ].
  exists r. eexists. split; [exact Hr | exact Hm].
Defined.

(** ** The retry policy *)

Section RetryDo.

Import retry.

Context {S : Type}.
Variable ctx_Err : S -> option errors.error.
Variable select_Done_After : Z -> S -> bool * S.
Variable fn : S -> option errors.error * S.

Lemma scale_double (u : Z) : scale u (2 # 1) = 2 * u.
Proof.
  unfold scale. cbn [Qmult inject_Z Qnum Qden Pos.mul].
  rewrite Z.quot_1_r. lia.
Qed.

Lemma cap_min (d m : Z) : (if d >? m then m else d) = Z.min d m.
Proof.
  rewrite Z.gtb_ltb. destruct (Z.ltb_spec m d); lia.
Qed.

(** The fuel [Do] starts with is all the loop can use: more changes
    nothing. *)
Lemma loop_fuel (cfg : Config) fuel :
  forall attempt delay lastErr s,
    (Z.to_nat (MaxAttempts cfg - attempt) <= fuel)%nat ->
    loop ctx_Err select_Done_After cfg fn fuel attempt delay lastErr s
    = loop ctx_Err select_Done_After cfg fn
        (Z.to_nat (MaxAttempts cfg - attempt)) attempt delay lastErr s.
Proof.
  induction fuel as [| fuel IH]; intros attempt delay lastErr s Hf.
  - replace (Z.to_nat (MaxAttempts cfg - attempt)) with 0%nat by lia.
    reflexivity.
  - destruct (Z.ltb_spec attempt (MaxAttempts cfg)) as [Hlt | Hge].
    + replace (Z.to_nat (MaxAttempts cfg - attempt))
        with (Datatypes.S (Z.to_nat (MaxAttempts cfg - (attempt + 1))))
        by lia.
      cbn [loop].
      destruct (attempt <? MaxAttempts cfg); [|reflexivity].
      destruct (ctx_Err s); [reflexivity|].
      destruct (fn s) as [[e |] s1]; [|reflexivity].
      destruct (attempt =? MaxAttempts cfg - 1); [reflexivity|].
      destruct (select_Done_After delay s1) as [[|] s2]; [reflexivity|].
      rewrite IH by lia. reflexivity.
    + replace (Z.to_nat (MaxAttempts cfg - attempt)) with 0%nat by lia.
      cbn [loop]. destruct (Z.ltb_spec attempt (MaxAttempts cfg)); [lia|].
      reflexivity.
Qed.

(** One iteration that finds the context live, [fn] failing and attempts
    left, and whose timer fires. *)
Lemma loop_retry (cfg : Config) fuel attempt delay lastErr s e s1 s2 :
  attempt < MaxAttempts cfg - 1 ->
  ctx_Err s = None ->
  fn s = (Some e, s1) ->
  select_Done_After delay s1 = (false, s2) ->
  loop ctx_Err select_Done_After cfg fn (Datatypes.S fuel) attempt delay
    lastErr s
  = let '(r, s3, tr) :=
      loop ctx_Err select_Done_After cfg fn fuel (attempt + 1)
        (Z.min (scale delay (Multiplier cfg)) (MaxDelay cfg)) (Some e) s2
    in (r, s3, Attempt :: Wait delay :: tr).
Proof.
  intros Ha Hc Hf Hs. cbn [loop].
  destruct (Z.ltb_spec attempt (MaxAttempts cfg)); [|lia].
  rewrite Hc, Hf.
  destruct (Z.eqb_spec attempt (MaxAttempts cfg - 1)); [lia|].
  rewrite Hs, cap_min. reflexivity.
Qed.

(** One iteration whose call of [fn] ends the loop: [fn] succeeds, or it
    fails on the last attempt. *)
Lemma loop_last (cfg : Config) fuel attempt delay lastErr s r s1 :
  attempt < MaxAttempts cfg ->
  ctx_Err s = None ->
  fn s = (r, s1) ->
  r = None \/ attempt = MaxAttempts cfg - 1 ->
  loop ctx_Err select_Done_After cfg fn (Datatypes.S fuel) attempt delay
    lastErr s
  = (r, s1, [Attempt]).
Proof.
  intros Ha Hc Hf Hr. cbn [loop].
  destruct (Z.ltb_spec attempt (MaxAttempts cfg)); [|lia].
  rewrite Hc, Hf. destruct r as [e |]; [|reflexivity].
  destruct Hr as [Hr | Hr]; [discriminate|].
  destruct (Z.eqb_spec attempt (MaxAttempts cfg - 1)); [reflexivity|lia].
Qed.

(** C7.  With [MaxAttempts] 0, [Do] calls nothing and returns nil.  With
    [MaxAttempts] 1, [Do] returns the context's error without a call if
    the context is done, and otherwise calls [fn] once and returns what it
    returned.  Either way there is at most one attempt and no backoff. *)
Theorem no_retry_without_budget (cfg : Config) (s : S) :
  (MaxAttempts cfg = 0 ->
   Do ctx_Err select_Done_After cfg fn s = (None, s, []))
  /\ (MaxAttempts cfg = 1 ->
      Do ctx_Err select_Done_After cfg fn s
      = match ctx_Err s with
        | Some e => (Some e, s, [])
        | None => (fst (fn s), snd (fn s), [Attempt])
        end)
  /\ (MaxAttempts cfg = 0 \/ MaxAttempts cfg = 1 ->
      (attempts (snd (Do ctx_Err select_Done_After cfg fn s)) <= 1)%nat
      /\ backoffs (snd (Do ctx_Err select_Done_After cfg fn s)) = 0%nat).
Proof.
  assert (H0 : MaxAttempts cfg = 0 ->
               Do ctx_Err select_Done_After cfg fn s = (None, s, [])).
  { intros H. unfold Do. rewrite H. reflexivity. }
  assert (H1 : MaxAttempts cfg = 1 ->
               Do ctx_Err select_Done_After cfg fn s
               = match ctx_Err s with
                 | Some e => (Some e, s, [])
                 | None => (fst (fn s), snd (fn s), [Attempt])
                 end).
  { intros H. unfold Do. rewrite H.
    change (Z.to_nat 1) with 1%nat.
    destruct (ctx_Err s) as [e |] eqn:Hc.
    - cbn [loop]. rewrite H, Hc. reflexivity.
    - apply loop_last; auto; try lia.
      apply surjective_pairing. }
  split; [exact H0|]. split; [exact H1|].
  intros [H | H].
  - rewrite (H0 H). cbn. auto.
  - rewrite (H1 H). destruct (ctx_Err s); cbn; auto.
Qed.

(** The schedule of a run that fails twice and then succeeds, for any
    cap: the base delay, then its double under the cap. *)
Lemma fail_fail_succeed (u maxDelay : Z) (s0 s1 s2 s3 : S) e1 e2 :
  (forall s, ctx_Err s = None) ->
  (forall d s, fst (select_Done_After d s) = false) ->
  fn s0 = (Some e1, s1) ->
  fn (snd (select_Done_After u s1)) = (Some e2, s2) ->
  fn (snd (select_Done_After (Z.min (2 * u) maxDelay) s2)) = (None, s3) ->
  Do ctx_Err select_Done_After
    {| MaxAttempts := 3; Delay := u; Multiplier := 2 # 1;
       MaxDelay := maxDelay |} fn s0
  = (None, s3,
     [Attempt; Wait u; Attempt; Wait (Z.min (2 * u) maxDelay); Attempt]).
Proof.
  intros Hctx Hsel H1 H2 H3. unfold Do.
  cbn [MaxAttempts Delay]. change (Z.to_nat 3) with 3%nat.
  erewrite loop_retry; cbn [MaxAttempts Multiplier MaxDelay];
    [ | lia | apply Hctx | exact H1
      | rewrite (surjective_pairing (select_Done_After u s1)), Hsel;
        reflexivity ].
  rewrite scale_double.
  erewrite loop_retry; cbn [MaxAttempts Multiplier MaxDelay];
    [ | lia | apply Hctx | exact H2
      | rewrite (surjective_pairing (select_Done_After _ s2)), Hsel;
        reflexivity ].
  erewrite loop_last; cbn [MaxAttempts];
    [ reflexivity | lia | apply Hctx | exact H3 | now left ].
Qed.

(** C6, amended.  With three attempts, base delay [u], multiplier 2.0 and
    a cap no smaller than the base delay, a unit of work that fails on its
    first two calls and succeeds on the third, under a context that is
    never done, makes [Do] wait [u] and then the smaller of [2u] and the
    cap, and return nil.  [u] is limited to the range in which the float
    product of the code is exact. *)
Theorem backoff_schedule (u maxDelay : Z) (s0 s1 s2 s3 : S) e1 e2 :
  0 < u <= 2 ^ 52 ->
  u <= maxDelay ->
  (forall s, ctx_Err s = None) ->
  (forall d s, fst (select_Done_After d s) = false) ->
  fn s0 = (Some e1, s1) ->
  fn (snd (select_Done_After u s1)) = (Some e2, s2) ->
  fn (snd (select_Done_After (Z.min (2 * u) maxDelay) s2)) = (None, s3) ->
  let r := Do ctx_Err select_Done_After
             {| MaxAttempts := 3; Delay := u; Multiplier := 2 # 1;
                MaxDelay := maxDelay |} fn s0 in
  fst (fst r) = None
  /\ attempts (snd r) = 3%nat
  /\ waits (snd r) = [u; Z.min (2 * u) maxDelay]
  /\ waits (snd r) = capped_waits u maxDelay
  /\ (2 * u <= maxDelay -> waits (snd r) = [u; 2 * u]).
Proof.
  intros Hu Hm Hctx Hsel H1 H2 H3 r. subst r.
  rewrite (fail_fail_succeed u maxDelay s0 s1 s2 s3 e1 e2) by assumption.
  cbn. unfold capped_waits. repeat split.
  - now rewrite (Z.min_l u maxDelay) by lia.
  - intros H. now rewrite Z.min_l by lia.
Qed.

End RetryDo.

(** One second of base delay under the default cap of thirty. *)
Lemma backoff_schedule_witness :
  let r := retry.Do mocks.neverDone mocks.timerFires retry.DefaultConfig
             mocks.scripted
             [Some (errors.Foreign "exit status 1");
              Some (errors.Foreign "exit status 1"); None] in
  fst (fst r) = None
  /\ retry.waits (snd r) = [model.Second; 2 * model.Second].
Proof.
  destruct (backoff_schedule mocks.neverDone mocks.timerFires
              mocks.scripted model.Second (30 * model.Second)
              [Some (errors.Foreign "exit status 1");
               Some (errors.Foreign "exit status 1"); None]
              [Some (errors.Foreign "exit status 1"); None] [None] []
              (errors.Foreign "exit status 1")
              (errors.Foreign "exit status 1"))
    as (Hr & _ & _ & _ & Hw);
    [ vm_compute; split; congruence | vm_compute; congruence
    | reflexivity | reflexivity | reflexivity | reflexivity
    | reflexivity | ].
  split; [exact Hr|]. apply Hw. vm_compute; congruence.
Defined.

(** C6, as worded, fails.  A configuration of three attempts, one second
    of base delay and multiplier 2.0 that leaves [MaxDelay] at zero waits
    one second and then nothing: the first wait is not capped, and the
    second is not two seconds. *)
Lemma backoff_first_wait_uncapped :
  retry.waits
    (snd (retry.Do mocks.neverDone mocks.timerFires mocks.noCapConfig
            mocks.scripted mocks.failTwice))
  = [model.Second; 0]
  /\ retry.waits
       (snd (retry.Do mocks.neverDone mocks.timerFires mocks.noCapConfig
               mocks.scripted mocks.failTwice))
     <> capped_waits model.Second 0
  /\ retry.waits
       (snd (retry.Do mocks.neverDone mocks.timerFires mocks.noCapConfig
               mocks.scripted mocks.failTwice))
     <> [model.Second; 2 * model.Second].
Proof.
  vm_compute. repeat split; discriminate.
Qed.

(** No retry budget: the script is called once or not at all. *)
Lemma no_retry_without_budget_witness :
  retry.Do mocks.neverDone mocks.timerFires
    {| retry.MaxAttempts := 0; retry.Delay := model.Second;
       retry.Multiplier := 2 # 1; retry.MaxDelay := 30 * model.Second |}
    mocks.scripted [Some (errors.Foreign "exit status 1")]
  = (None, [Some (errors.Foreign "exit status 1")], [])
  /\ retry.Do mocks.neverDone mocks.timerFires
       {| retry.MaxAttempts := 1; retry.Delay := model.Second;
          retry.Multiplier := 2 # 1; retry.MaxDelay := 30 * model.Second |}
       mocks.scripted [Some (errors.Foreign "exit status 1")]
     = (Some (errors.Foreign "exit status 1"), [], [retry.Attempt]).
Proof.
  split.
  - exact (proj1 (no_retry_without_budget mocks.neverDone
                    mocks.timerFires mocks.scripted
                    {| retry.MaxAttempts := 0; retry.Delay := model.Second;
                       retry.Multiplier := 2 # 1;
                       retry.MaxDelay := 30 * model.Second |}
                    [Some (errors.Foreign "exit status 1")]) eq_refl).
  - exact (proj1 (proj2 (no_retry_without_budget mocks.neverDone
                    mocks.timerFires mocks.scripted
                    {| retry.MaxAttempts := 1; retry.Delay := model.Second;
                       retry.Multiplier := 2 # 1;
                       retry.MaxDelay := 30 * model.Second |}
                    [Some (errors.Foreign "exit status 1")])) eq_refl).
Defined.

(** ** The single-job call *)

Section ProcessAudioRetry.

Context {W : Type} (rt : goruntime.Runtime W).
Variable s : usecase.AudioService W.

(** A validation error on the first run of the pipeline: the closure
    returns nil, and [Do] stops there with nil. *)
Lemma Do_attempt_validation (cfg : retry.Config) (job : pipeline.Job W)
    (w0 w1 : W) r0 res e :
  1 <= retry.MaxAttempts cfg ->
  goruntime.ctx_Err rt w0 = None ->
  pipeline.Run rt (usecase.pipeline_ s) job w0 = ((res, Some e), w1) ->
  usecase.isValidationError e = true ->
  retry.Do (usecase.ctxErr rt) (usecase.backoff rt) cfg (usecase.attempt rt s job) (w0, r0)
  = (None, (w1, res), [retry.Attempt]).
Proof.
  intros Hm Hc Hr Hv. unfold retry.Do.
  destruct (Z.to_nat (retry.MaxAttempts cfg)) as [| n] eqn:Hn; [lia|].
  apply loop_last; auto; try lia.
  unfold usecase.attempt. cbn [fst]. rewrite Hr, Hv. reflexivity.
Qed.

(** C4.  Whatever the retry configuration, provided it allows at least
    one attempt and the context is live: when the pipeline run that
    [ProcessAudio] wraps fails with a validation error, [Do] runs the
    pipeline once and never waits.  The same holds for the configuration
    [ProcessAudio] builds from the options of the call. *)
Theorem validation_failure_runs_once (cfg : retry.Config)
    (job : pipeline.Job W) (w0 w1 : W) r0 res e :
  1 <= retry.MaxAttempts cfg ->
  goruntime.ctx_Err rt w0 = None ->
  pipeline.Run rt (usecase.pipeline_ s) job w0 = ((res, Some e), w1) ->
  usecase.isValidationError e = true ->
  let tr :=
    snd (retry.Do (usecase.ctxErr rt) (usecase.backoff rt) cfg (usecase.attempt rt s job) (w0, r0)) in
  tr = [retry.Attempt]
  /\ retry.attempts tr = 1%nat
  /\ retry.backoffs tr = 0%nat
  /\ snd (fst (retry.Do (usecase.ctxErr rt) (usecase.backoff rt) cfg (usecase.attempt rt s job)
                 (w0, r0))) = (w1, res).
Proof.
  intros Hm Hc Hr Hv tr. subst tr.
  rewrite (Do_attempt_validation cfg job w0 w1 r0 res e) by assumption.
  cbn. auto.
Qed.

(** What becomes of such a call: [Do] returned nil and [result] is nil,
    so [ProcessAudio] dereferences a nil pointer. *)
Lemma ProcessAudio_validation_panics (inputPath outputPath : string)
    (opts : list ports.Option) (w w1 : W) res e :
  let options := usecase.applyOptions opts in
  let w0 := usecase.withTimeout rt options w in
  1 <= model.MaxRetries options ->
  goruntime.ctx_Err rt w0 = None ->
  pipeline.Run rt (usecase.pipeline_ s)
    (usecase.newJob rt s inputPath outputPath options w0) w0
    = ((res, Some e), w1) ->
  usecase.isValidationError e = true ->
  usecase.ProcessAudio rt s inputPath outputPath opts w
  = (usecase.Panicked "nil pointer dereference", w1).
Proof.
  intros options w0 Hm Hc Hr Hv.
  unfold usecase.ProcessAudio, usecase.ProcessAudio_retry.
  fold options. fold w0.
  pose proof (Do_attempt_validation
    {| retry.MaxAttempts := model.MaxRetries options;
       retry.Delay := model.RetryDelay options;
       retry.Multiplier := 2 # 1;
       retry.MaxDelay := 30 * model.Second |}
    _ w0 w1 None res e Hm Hc Hr Hv) as HD.
  rewrite HD.
  now rewrite (Run_error_no_result rt _ _ _ _ _ _ Hr).
Qed.

End ProcessAudioRetry.

(** The default budget of three attempts, an empty input path. *)
Lemma validation_failure_runs_once_witness :
  snd (usecase.ProcessAudio_retry mocks.runtime mocks.plainService
         "" "out.opus" [] mocks.world0)
  = [retry.Attempt].
Proof.
  unfold usecase.ProcessAudio_retry.
  eapply (validation_failure_runs_once mocks.runtime mocks.plainService).
  - vm_compute. congruence.
  - reflexivity.
  - vm_compute. reflexivity.
  - reflexivity.
Defined.

(** C1, in the code.  [ProcessAudio] with an empty input path, default
    options and a live context: the pipeline run fails with a validation
    error on the field [inputPath]; the call does not return that error,
    nor any other: it panics. *)
Theorem ProcessAudio_loses_validation_error :
  pipeline.Run mocks.runtime mocks.plainPipeline
    (usecase.newJob mocks.runtime mocks.plainService "" "out.opus"
       model.DefaultProcessingOptions mocks.world0) mocks.world0
    = ((None, Some (errors.NewValidationError "inputPath"
                      (errors.VString "")
                      "input path must not be empty")), mocks.world0)
  /\ usecase.ProcessAudio mocks.runtime mocks.plainService
       "" "out.opus" [] mocks.world0
     = (usecase.Panicked "nil pointer dereference", mocks.world0)
  /\ forall e,
       fst (usecase.ProcessAudio mocks.runtime mocks.plainService
              "" "out.opus" [] mocks.world0)
       <> usecase.Returned None (Some e).
Proof.
  split; [|split]; [vm_compute; reflexivity | vm_compute; reflexivity |].
  intros e. vm_compute. discriminate.
Qed.

(** ** The worker pool *)

Section Pool.

Import pipeline.

Context {W : Type} (rt : goruntime.Runtime W).
Variables (wp : WorkerPool W) (reporter : Reporter_t W).
Variable jobs : list model.BatchJob.

Lemma occ_app id l1 l2 : occ id (l1 ++ l2) = (occ id l1 + occ id l2)%nat.
Proof. apply count_occ_app. Qed.

Lemma occ_cons id x l :
  occ id (x :: l) = ((if string_dec x id then 1 else 0) + occ id l)%nat.
Proof. unfold occ. cbn. destruct (string_dec x id); reflexivity. Qed.

Lemma occ_nil id : occ id [] = 0%nat.
Proof. reflexivity. Qed.

Lemma holders_app g1 g2 : holders (g1 ++ g2) = holders g1 + holders g2.
Proof.
  unfold holders. rewrite filter_app, length_app. lia.
Qed.

Lemma holders_cons x g :
  holders (x :: g) = (if holds x then 1 else 0) + holders g.
Proof.
  unfold holders. cbn [filter]. destruct (holds x); cbn [List.length]; lia.
Qed.

Lemma holders_nonneg g : 0 <= holders g.
Proof. unfold holders. lia. Qed.

Lemma list_sum_cons x l : list_sum (x :: l) = (x + list_sum l)%nat.
Proof. reflexivity. Qed.

Lemma list_sum_nil : list_sum [] = 0%nat.
Proof. reflexivity. Qed.

Lemma holders_nil : holders (@nil (model.BatchJob * worker_pc)) = 0.
Proof. reflexivity. Qed.

Create Rewrite HintDb pool.

#[local] Hint Rewrite occ_app occ_cons occ_nil @length_map @map_app @flat_map_app @length_app holders_app
  holders_cons holders_nil list_sum_app list_sum_cons list_sum_nil : pool.

Ltac pool_cbn :=
  cbn [world jobCh semaphore wg gos cap buffer closed dpc received eof
       accounted committed owes holds go_weight dpc_weight fst snd
       flat_map map List.app List.length list_sum model.JobID] in *.

Ltac pool_simpl :=
  unfold accounted, measure in *;
  repeat (progress (pool_cbn; autorewrite with pool in * )).

(** The two initial states satisfy the invariant. *)
Lemma invariant_Run_pool (w : W) :
  0 <= workers wp -> invariant wp jobs (Run_pool jobs w).
Proof.
  intros Hw. unfold invariant, Run_pool, accounted. cbn.
  repeat split; auto.
Qed.

Lemma invariant_closed_stream (w : W) :
  0 <= workers wp -> invariant wp [] (closed_stream w).
Proof.
  intros Hw. unfold invariant, closed_stream, accounted. cbn.
  repeat split; auto.
Qed.

Ltac occ_solve H :=
  let id := fresh "id" in
  intros id; specialize (H id); pool_simpl; lia.

Lemma length_zero_nil {A} (l : list A) :
  0 = Z.of_nat (List.length l) -> l = [].
Proof. destruct l; [reflexivity | cbn [List.length]; lia]. Qed.

Ltac pool_finish :=
  repeat match goal with
    | H : (_ ++ _ :: _)%list = [] |- _ =>
        symmetry in H; apply app_cons_not_nil in H; contradiction
    | H : _ /\ _ |- _ => destruct H
    | H : ?a = ?a -> _ |- _ => specialize (H eq_refl)
    | |- _ /\ _ => split
    | |- _ -> _ => intro
    end;
  subst; auto; try lia; try congruence.

Ltac pool_case :=
  try match goal with
    | d : dispatcher_pc |- _ => destruct d
    end;
  pool_finish.

Lemma invariant_dispatcher st st' :
  invariant wp jobs st -> dispatcher_step rt wp st st' ->
  invariant wp jobs st'.
Proof.
  intros (Hocc & Hcap & Hsem & Hb & Hwg & Hpc & Heof) Hstep.
  inversion Hstep; subst; unfold invariant; pool_cbn;
    (split; [occ_solve Hocc|]); pool_simpl; pool_case.
  now apply length_zero_nil.
Qed.

Lemma invariant_worker st st' :
  invariant wp jobs st -> worker_step rt wp reporter st st' ->
  invariant wp jobs st'.
Proof.
  intros (Hocc & Hcap & Hsem & Hb & Hwg & Hpc & Heof) Hstep.
  inversion Hstep; subst; unfold invariant; pool_cbn;
    (split; [occ_solve Hocc|]); pool_simpl; pool_case.
Qed.

Lemma invariant_reader (st st' : state W) :
  invariant wp jobs st -> reader_step st st' -> invariant wp jobs st'.
Proof.
  intros (Hocc & Hcap & Hsem & Hb & Hwg & Hpc & Heof) Hstep.
  inversion Hstep; subst; unfold invariant; pool_cbn;
    (split; [occ_solve Hocc|]); pool_simpl; pool_case.
Qed.

Lemma invariant_env (st st' : state W) :
  invariant wp jobs st -> env_step st st' -> invariant wp jobs st'.
Proof.
  intros Hinv Hstep. inversion Hstep; subst. exact Hinv.
Qed.

Lemma invariant_prog st st' :
  invariant wp jobs st -> prog_step rt wp reporter st st' ->
  invariant wp jobs st'.
Proof.
  intros Hinv Hs. inversion Hs as [? ? H | ? ? H | ? ? H]; subst.
  - exact (invariant_dispatcher st st' Hinv H).
  - exact (invariant_worker st st' Hinv H).
  - exact (invariant_reader st st' Hinv H).
Qed.

Lemma invariant_reachable s0 st :
  invariant wp jobs s0 -> reachable rt wp reporter s0 st ->
  invariant wp jobs st.
Proof.
  intros H0 Hr. induction Hr as [| s s' _ IH Hs | s s' _ IH Hs].
  - exact H0.
  - exact (invariant_prog s s' IH Hs).
  - exact (invariant_env s s' IH Hs).
Qed.

(** Every step of the program brings the end nearer. *)
Lemma measure_decreases st st' :
  prog_step rt wp reporter st st' -> (measure st' < measure st)%nat.
Proof.
  intros Hs. inversion Hs as [? ? H | ? ? H | ? ? H]; subst;
    inversion H; subst; pool_simpl; try lia.
Qed.

Lemma measure_env (st st' : state W) : env_step st st' -> measure st' = measure st.
Proof. intros H. inversion H; subst. reflexivity. Qed.

Lemma measure_reachable s0 st :
  reachable rt wp reporter s0 st -> (measure st <= measure s0)%nat.
Proof.
  intros Hr. induction Hr as [| s s' _ IH Hs | s s' _ IH Hs].
  - lia.
  - pose proof (measure_decreases s s' Hs). lia.
  - rewrite (measure_env s s' Hs). exact IH.
Qed.

(** A run of [n] program steps uses up at least [n] of the measure. *)
Lemma prog_steps_bounded n st st' :
  prog_steps rt wp reporter n st st' -> (n + measure st' <= measure st)%nat.
Proof.
  intros Hs. induction Hs as [| n s s' s'' H1 _ IH].
  - lia.
  - pose proof (measure_decreases s s' H1). lia.
Qed.

(** The job identifiers accounted for are those submitted, as lists up to
    order. *)
Lemma accounted_perm st :
  invariant wp jobs st -> Permutation (accounted st) (map model.ID jobs).
Proof.
  intros (Hocc & _). apply (Permutation_count_occ string_dec). exact Hocc.
Qed.

Lemma accounted_length st :
  invariant wp jobs st ->
  List.length (accounted st) = List.length jobs.
Proof.
  intros H. rewrite (Permutation_length (accounted_perm st H)).
  apply length_map.
Qed.

(** A live job goroutine can always take its next step: the stream has
    room for every result still owed. *)
Lemma worker_can_step st x g :
  invariant wp jobs st -> gos st = x :: g ->
  exists st', worker_step rt wp reporter st st'.
Proof.
  intros Hinv Hg. pose proof (accounted_length st Hinv) as Hlen.
  destruct Hinv as (_ & Hcap & _ & _ & _ & Hpc & _).
  destruct st as [w js sem n gs c buf cl d rcv ef].
  pool_cbn. subst gs. destruct x as [j [| r | |]].
  - eexists. apply (w_process rt wp reporter w js sem n [] j g).
  - assert (cl = false) as ->.
    { destruct d; pool_finish. }
    eexists. apply (w_send rt wp reporter w js sem n [] j r g).
    pool_simpl. lia.
  - eexists. apply (w_release rt wp reporter w js sem n [] j g).
  - eexists. apply (w_done rt wp reporter w js sem n [] j g).
Qed.

(** Short of the end, the program is never stuck. *)
Lemma pool_progress st :
  1 <= workers wp -> invariant wp jobs st -> eof st = false ->
  exists st', prog_step rt wp reporter st st'.
Proof.
  intros Hw Hinv Hef.
  assert (Hgo : forall x g, gos st = x :: g ->
                  exists st', prog_step rt wp reporter st st').
  { intros x g Hg. destruct (worker_can_step st x g Hinv Hg) as [st' H].
    exists st'. now apply ps_worker. }
  pose proof (accounted_length st Hinv) as Hlen.
  destruct Hinv as (_ & Hcap & Hsem & _ & Hwg & Hpc & _).
  destruct st as [w js sem n gs c buf cl d rcv ef].
  pool_cbn. subst ef. destruct d as [| r | |].
  - subst cl. destruct js as [| j js].
    + eexists. apply ps_dispatcher. apply d_range_end.
    + destruct (Z.lt_ge_cases sem (workers wp)) as [Hlt | Hge].
      * eexists. apply ps_dispatcher. now apply d_admit.
      * destruct gs as [| x g]; [|now apply (Hgo x g)].
        rewrite holders_nil in Hsem. lia.
  - subst cl. eexists. apply ps_dispatcher. apply d_cancel_send.
    pool_simpl. lia.
  - destruct Hpc as [-> ->]. destruct gs as [| x g]; [|now apply (Hgo x g)].
    cbn in Hwg. subst n. eexists. apply ps_dispatcher. apply d_close.
  - destruct Hpc as (-> & -> & ->). destruct buf as [| r buf].
    + eexists. apply ps_reader. apply r_eof.
    + eexists. apply ps_reader. apply r_recv.
Qed.

(** What the caller has read never exceeds the batch; once the stream is
    closed everything has been sent; once the caller has seen the close it
    has read one result for each job. *)
Lemma delivered_so_far st :
  invariant wp jobs st ->
  (exists rest,
      Permutation (map model.JobID (received st) ++ rest)
        (map model.ID jobs))
  /\ (closed st = true ->
      Permutation (map model.JobID (received st ++ buffer st))
        (map model.ID jobs))
  /\ (eof st = true ->
      Permutation (map model.JobID (received st)) (map model.ID jobs)).
Proof.
  intros Hinv. pose proof (accounted_perm st Hinv) as Hp.
  destruct Hinv as (_ & _ & _ & _ & _ & Hpc & Heof).
  unfold accounted in Hp.
  assert (Hcl : closed st = true ->
    Permutation (map model.JobID (received st ++ buffer st))
      (map model.ID jobs)).
  { intros Hc. destruct (dpc st); pool_finish; try congruence.
    rewrite H, H0 in Hp. cbn in Hp. rewrite app_nil_r in Hp.
    rewrite map_app. exact Hp. }
  split; [eexists; exact Hp|]. split; [exact Hcl|].
  intros He. destruct (Heof He) as [Hc Hb]. specialize (Hcl Hc).
  rewrite Hb, app_nil_r in Hcl. exact Hcl.
Qed.

End Pool.

(** ** Batches *)

Section Batch.

Import pipeline.

Context {W : Type} (rt : goruntime.Runtime W).

Lemma NewWorkerPool_workers (p : Pipeline W) (n : Z) :
  1 <= workers (NewWorkerPool p n).
Proof.
  unfold NewWorkerPool. cbn. destruct (Z.leb_spec n 0); lia.
Qed.

Lemma NewAudioService_workers (cfg : usecase.Config W)
    (s : usecase.AudioService W) :
  usecase.NewAudioService cfg = inl s ->
  1 <= workers (usecase.workerPool s).
Proof.
  unfold usecase.NewAudioService.
  destruct (usecase.Executor cfg); [|discriminate].
  destruct (usecase.Storage cfg); [|discriminate].
  intros H. injection H as <-. apply NewWorkerPool_workers.
Qed.

Lemma invariant_ProcessBatch (s : usecase.AudioService W) jobs (w : W) :
  0 <= workers (usecase.workerPool s) ->
  invariant (usecase.workerPool s) jobs (usecase.ProcessBatch s jobs w).
Proof.
  intros Hw. destruct jobs as [| j js].
  - now apply invariant_closed_stream.
  - now apply invariant_Run_pool.
Qed.

Lemma measure_ProcessBatch (s : usecase.AudioService W) jobs (w : W) :
  (measure (usecase.ProcessBatch s jobs w) <= 6 * List.length jobs + 4)%nat.
Proof.
  destruct jobs as [| j js]; cbn; lia.
Qed.

(** C2.  For a service built by [NewAudioService] and a batch [jobs], in
    every state the stream of [ProcessBatch] can reach: the results read
    so far are results of distinct submitted jobs; if the stream is closed
    then one result for every submitted job has been sent on it; if the
    caller has seen the close then it has read exactly one result for
    each submitted job, [length jobs] in all.  Short of that the program
    can always take a step, and it can take at most [6 * length jobs + 4]
    of them.  For an empty batch the stream is closed and empty from the
    start. *)
Theorem batch_delivers_each_job_once (cfg : usecase.Config W)
    (s : usecase.AudioService W) (jobs : list model.BatchJob) (w : W)
    (st : state W) :
  usecase.NewAudioService cfg = inl s ->
  reachable rt (usecase.workerPool s) (usecase.reporter s)
    (usecase.ProcessBatch s jobs w) st ->
  (exists rest,
      Permutation (map model.JobID (received st) ++ rest)
        (map model.ID jobs))
  /\ (closed st = true ->
      Permutation (map model.JobID (received st ++ buffer st))
        (map model.ID jobs))
  /\ (eof st = true ->
      Permutation (map model.JobID (received st)) (map model.ID jobs)
      /\ List.length (received st) = List.length jobs)
  /\ (eof st = false ->
      exists st',
        prog_step rt (usecase.workerPool s) (usecase.reporter s) st st')
  /\ (forall n st',
        prog_steps rt (usecase.workerPool s) (usecase.reporter s) n st st'
        -> (n <= 6 * List.length jobs + 4)%nat)
  /\ (jobs = [] ->
      closed (usecase.ProcessBatch s jobs w) = true
      /\ buffer (usecase.ProcessBatch s jobs w) = []
      /\ received (usecase.ProcessBatch s jobs w) = []).
Proof.
  intros Hnew Hreach.
  pose proof (NewAudioService_workers cfg s Hnew) as Hw.
  assert (Hinv : invariant (usecase.workerPool s) jobs st).
  { apply (invariant_reachable rt _ (usecase.reporter s) jobs
             (usecase.ProcessBatch s jobs w)); [|exact Hreach].
    apply invariant_ProcessBatch. lia. }
  destruct (delivered_so_far (usecase.workerPool s) jobs st Hinv)
    as (Hsome & Hclosed & Heof).
  split; [exact Hsome|]. split; [exact Hclosed|]. split; [|split; [|split]].
  - intros He. specialize (Heof He). split; [exact Heof|].
    apply Permutation_length in Heof. now rewrite !length_map in Heof.
  - intros He. now apply (pool_progress rt _ _ jobs).
  - intros n st' Hsteps.
    pose proof (prog_steps_bounded rt _ _ n st st' Hsteps).
    pose proof (measure_reachable rt _ _ _ st Hreach).
    pose proof (measure_ProcessBatch s jobs w). lia.
  - intros ->. cbn. auto.
Qed.

Lemma prog_steps_reachable (wp : WorkerPool W) (reporter : Reporter_t W)
    n s0 st st' :
  reachable rt wp reporter s0 st -> prog_steps rt wp reporter n st st' ->
  reachable rt wp reporter s0 st'.
Proof.
  intros Hr Hs. induction Hs as [| n s s' s'' H1 _ IH]; [exact Hr|].
  apply IH. now apply (reach_prog rt wp reporter s0 s s').
Qed.

(** A batch of one job with a free worker: the dispatcher admits the job
    whatever the state of the context, and the run ends with the caller
    holding the result of [processJob]. *)
Lemma one_job_run (wp : WorkerPool W) (reporter : Reporter_t W)
    (j : model.BatchJob) (w : W) :
  0 < workers wp ->
  prog_steps rt wp reporter 9 (Run_pool [j] w)
    {| world := snd (processJob rt wp j reporter w);
       jobCh := []; semaphore := 0; wg := 0; gos := []; cap := 1;
       buffer := []; closed := true; dpc := Finished;
       received :=
         [ {| model.JobID := model.ID j;
              model.Result := fst (fst (processJob rt wp j reporter w));
              model.Err := snd (fst (processJob rt wp j reporter w)) |} ];
       eof := true |}.
Proof.
  intros Hw. unfold Run_pool.
  eapply steps_cons.
  { apply ps_dispatcher. apply d_admit. exact Hw. }
  eapply steps_cons.
  { apply ps_worker. apply (w_process rt wp reporter w [] _ _ [] j []). }
  eapply steps_cons.
  { apply ps_worker.
    apply (w_send rt wp reporter _ [] _ _ [] j _ []). cbn. lia. }
  eapply steps_cons.
  { apply ps_worker. apply (w_release rt wp reporter _ [] _ _ [] j []). }
  eapply steps_cons.
  { apply ps_worker. apply (w_done rt wp reporter _ [] _ _ [] j []). }
  eapply steps_cons.
  { apply ps_dispatcher. apply d_range_end. }
  eapply steps_cons.
  { apply ps_dispatcher. apply d_close. }
  eapply steps_cons.
  { apply ps_reader. apply r_recv. }
  eapply steps_cons.
  { apply ps_reader. apply r_eof. }
  apply steps_nil.
Qed.

End Batch.

(** The test service, one job, the run of [one_job_run]: the caller ends
    up with one result, for job [a]. *)
Lemma batch_delivers_each_job_once_witness :
  exists st,
    pipeline.reachable mocks.runtime
      (usecase.workerPool mocks.plainService)
      (usecase.reporter mocks.plainService)
      (usecase.ProcessBatch mocks.plainService [mocks.jobA] mocks.world0)
      st
    /\ pipeline.eof st = true
    /\ Permutation (map model.JobID (pipeline.received st)) ["a"].
Proof.
  eexists. split; [|split].
  - eapply prog_steps_reachable; [apply pipeline.reach_init|].
    apply (one_job_run mocks.runtime). reflexivity.
  - reflexivity.
  - apply (batch_delivers_each_job_once mocks.runtime mocks.plainConfig
             mocks.plainService [mocks.jobA] mocks.world0).
    + reflexivity.
    + eapply prog_steps_reachable; [apply pipeline.reach_init|].
      apply (one_job_run mocks.runtime). reflexivity.
    + reflexivity.
Defined.

(** C3, in the code.  A batch of one job submitted under a context that
    is already cancelled, to a pool with a free worker: both cases of the
    dispatcher's [select] can proceed, and in the run where it takes the
    semaphore the job goes through the pipeline.  With the test doubles,
    which do not look at the context, the caller reads a result without an
    error, the executor has probed both files and has been handed one
    argument vector. *)
Theorem cancelled_context_job_may_be_admitted :
  goruntime.ctx_Err mocks.runtime mocks.cancelled0
    = Some errors.Canceled
  /\ exists st r,
      pipeline.prog_steps mocks.runtime
        (usecase.workerPool mocks.plainService)
        (usecase.reporter mocks.plainService) 9
        (usecase.ProcessBatch mocks.plainService [mocks.jobA]
           mocks.cancelled0) st
      /\ pipeline.eof st = true
      /\ pipeline.received st
         = [ {| model.JobID := "a"; model.Result := Some r;
                model.Err := None |} ]
      /\ mocks.Probed (pipeline.world st) = ["in.wav"; "out.opus"]
      /\ mocks.ExecutedArgs (pipeline.world st)
         = [ ["-y"; "-i"; "in.wav"; "-af";
              "loudnorm=I=-23.0:TP=-1.0:LRA=7.0"; "-ar"; "48000";
              "-c:a"; "libopus"; "-vbr"; "off"; "-b:a"; "128k";
              "out.opus"] ].
Proof.
  split; [reflexivity|].
  eexists. eexists. split; [|split; [|split; [|split]]].
  - apply (one_job_run mocks.runtime). reflexivity.
  - reflexivity.
  - vm_compute. reflexivity.
  - vm_compute. reflexivity.
  - vm_compute. reflexivity.
Qed.

(* ================================================================= *)
(** * Further properties *)

(** ** The retry loop in general *)

Section RetryLoop.

Import retry.

Context {S : Type}.
Variable ctx_Err : S -> option errors.error.
Variable select_Done_After : Z -> S -> bool * S.
Variable cfg : Config.
Variable fn : S -> option errors.error * S.

#[local] Abbreviation loop_ := (loop ctx_Err select_Done_After cfg fn).

(** Case analysis on one iteration of the loop. *)
Ltac loop_cases attempt s delay :=
  cbn [loop];
  destruct (Z.ltb_spec0 attempt (MaxAttempts cfg)) as [Hlt | Hge];
  [ destruct (ctx_Err s) as [ce |] eqn:Hctx;
    [ | destruct (fn s) as [[e |] s1] eqn:Hfn;
        [ destruct (Z.eqb_spec attempt (MaxAttempts cfg - 1))
            as [Hlast | Hmore];
          [ | destruct (select_Done_After delay s1) as [[|] s2] eqn:Hsel ]
        | ] ]
  | ].

Lemma loop_attempts fuel :
  forall attempt delay lastErr s,
    (attempts (snd (loop_ fuel attempt delay lastErr s)) <= fuel)%nat.
Proof.
  induction fuel as [| fuel IH]; intros attempt delay lastErr s.
  - cbn. lia.
  - loop_cases attempt s delay; cbn; try lia.
    specialize (IH (attempt + 1)
      (if scale delay (Multiplier cfg) >? MaxDelay cfg
       then MaxDelay cfg else scale delay (Multiplier cfg))
      (Some e) s2).
    destruct (loop_ fuel _ _ _ s2) as [[r s3] tr]. cbn in *. lia.
Qed.

(** X1.  [Do] never calls the unit of work more often than the budget
    allows: the number of attempts is at most [MaxAttempts] (none when
    the budget is zero or negative). *)
Theorem Do_attempts_within_budget (s : S) :
  (attempts (snd (Do ctx_Err select_Done_After cfg fn s)) <= Z.to_nat (MaxAttempts cfg))%nat.
Proof. apply loop_attempts. Qed.

Lemma loop_alternating fuel :
  forall attempt delay lastErr s,
    alternating (snd (loop_ fuel attempt delay lastErr s)).
Proof.
  induction fuel as [| fuel IH]; intros attempt delay lastErr s.
  - constructor.
  - loop_cases attempt s delay; cbn; try constructor.
    specialize (IH (attempt + 1)
      (if scale delay (Multiplier cfg) >? MaxDelay cfg
       then MaxDelay cfg else scale delay (Multiplier cfg))
      (Some e) s2).
    destruct (loop_ fuel _ _ _ s2) as [[r s3] tr]. cbn in *.
    now constructor.
Qed.

(** X2.  What [Do] does is a sequence of attempts, each but the last
    followed by a backoff that ran to its end; a backoff cut short by the
    context, if any, comes last.  So no backoff precedes the first attempt,
    no two attempts follow each other without a backoff, and nothing is
    attempted after the context interrupted a backoff. *)
Theorem Do_trace_alternates (s : S) : alternating (snd (Do ctx_Err select_Done_After cfg fn s)).
Proof. apply loop_alternating. Qed.

Lemma loop_delays fuel :
  forall attempt delay lastErr s,
    delays (snd (loop_ fuel attempt delay lastErr s)) = []
    \/ exists rest,
        delays (snd (loop_ fuel attempt delay lastErr s)) = delay :: rest
        /\ Forall (fun d => d <= MaxDelay cfg) rest.
Proof.
  induction fuel as [| fuel IH]; intros attempt delay lastErr s.
  - now left.
  - loop_cases attempt s delay; cbn; auto.
    + right. exists []. split; [reflexivity | constructor].
    + specialize (IH (attempt + 1)
        (if scale delay (Multiplier cfg) >? MaxDelay cfg
         then MaxDelay cfg else scale delay (Multiplier cfg))
        (Some e) s2).
      destruct (loop_ fuel _ _ _ s2) as [[r s3] tr]. cbn [snd] in *.
      change (delays (Attempt :: Wait delay :: tr))
        with (delay :: delays tr).
      right. exists (delays tr). split; [reflexivity|].
      destruct IH as [E | (rest & E & Hrest)]; rewrite E; [constructor|].
      constructor; [|exact Hrest].
      destruct (Z.gtb_spec (scale delay (Multiplier cfg)) (MaxDelay cfg));
        lia.
Qed.

(** X3.  The first backoff of [Do] lasts [cfg.Delay], whatever [MaxDelay]
    is; every later backoff lasts at most [MaxDelay]. *)
Theorem Do_delays_capped_after_first (s : S) :
  delays (snd (Do ctx_Err select_Done_After cfg fn s)) = []
  \/ exists rest,
      delays (snd (Do ctx_Err select_Done_After cfg fn s)) = Delay cfg :: rest
      /\ Forall (fun d => d <= MaxDelay cfg) rest.
Proof. apply loop_delays. Qed.

(** A budget of zero or less: nothing is called. *)
Lemma Do_zero_budget (s : S) :
  MaxAttempts cfg <= 0 -> Do ctx_Err select_Done_After cfg fn s = (None, s, []).
Proof.
  unfold Do. intros H.
  replace (Z.to_nat (MaxAttempts cfg)) with 0%nat by lia.
  reflexivity.
Qed.

(** A context that is done at entry: nothing is called. *)
Lemma Do_context_done (s : S) e :
  1 <= MaxAttempts cfg -> ctx_Err s = Some e -> Do ctx_Err select_Done_After cfg fn s = (Some e, s, []).
Proof.
  unfold Do. intros H Hc.
  destruct (Z.to_nat (MaxAttempts cfg)) as [| n] eqn:Hn; [lia|].
  cbn [loop]. destruct (Z.ltb_spec0 0 (MaxAttempts cfg)); [|lia].
  now rewrite Hc.
Qed.

(** X4.  When [Do] calls nothing.  With a budget of zero or less it
    returns nil at once; with a positive budget and a context that is
    already done it returns the context's error.  The state is untouched
    in both cases. *)
Theorem Do_without_attempt (s : S) :
  (MaxAttempts cfg <= 0 -> Do ctx_Err select_Done_After cfg fn s = (None, s, []))
  /\ (forall e, 1 <= MaxAttempts cfg -> ctx_Err s = Some e ->
      Do ctx_Err select_Done_After cfg fn s = (Some e, s, [])).
Proof.
  split; [apply Do_zero_budget | intros e; apply Do_context_done].
Qed.

Lemma loop_reports_failure fuel :
  (forall s, fst (fn s) <> None) ->
  (forall d s, fst (select_Done_After d s) = true ->
               ctx_Err (snd (select_Done_After d s)) <> None) ->
  forall attempt delay lastErr s,
    lastErr <> None \/ ((0 < fuel)%nat /\ attempt < MaxAttempts cfg) ->
    fst (fst (loop_ fuel attempt delay lastErr s)) <> None.
Proof.
  intros Hwork Hdone.
  induction fuel as [| fuel IH]; intros attempt delay lastErr s H.
  - cbn [loop fst]. destruct H as [H | [H _]]; [exact H | lia].
  - loop_cases attempt s delay; cbn [fst].
    + discriminate.
    + discriminate.
    + pose proof (Hdone delay s1) as Hs. rewrite Hsel in Hs.
      now apply Hs.
    + assert (Hsome : Some e <> None) by discriminate.
      specialize (IH (attempt + 1)
        (if scale delay (Multiplier cfg) >? MaxDelay cfg
         then MaxDelay cfg else scale delay (Multiplier cfg))
        (Some e) s2 (or_introl Hsome)).
      destruct (loop_ fuel _ _ _ s2) as [[r s3] tr]. exact IH.
    + pose proof (Hwork s) as Hf. rewrite Hfn in Hf. now apply Hf.
    + destruct H as [H | [_ H]]; [exact H | lia].
Qed.

(** X5.  With a budget of at least one attempt, [Do] does not report
    success for work that never succeeds: if every call of the unit of
    work fails, and a context that wins a backoff has a non-nil error,
    then [Do] returns a non-nil error. *)
Theorem Do_reports_failure (s : S) :
  1 <= MaxAttempts cfg ->
  (forall s, fst (fn s) <> None) ->
  (forall d s, fst (select_Done_After d s) = true ->
               ctx_Err (snd (select_Done_After d s)) <> None) ->
  fst (fst (Do ctx_Err select_Done_After cfg fn s)) <> None.
Proof.
  intros Hm Hfn Hsel. apply loop_reports_failure; auto.
  right. split; lia.
Qed.

Lemma loop_exhausts (P : errors.error -> Prop) fuel :
  (forall s, ctx_Err s = None) ->
  (forall d s, fst (select_Done_After d s) = false) ->
  (forall s, exists e, fst (fn s) = Some e /\ P e) ->
  forall attempt delay lastErr s,
    Z.of_nat (Datatypes.S fuel) = MaxAttempts cfg - attempt ->
    let r := loop_ (Datatypes.S fuel) attempt delay lastErr s in
    attempts (snd r) = Datatypes.S fuel
    /\ List.length (waits (snd r)) = fuel
    /\ exists e, fst (fst r) = Some e /\ P e.
Proof.
  intros Hctx Hsel Hfn.
  induction fuel as [| fuel IH]; intros attempt delay lastErr s Hf r;
    subst r.
  - cbn [loop]. destruct (Z.ltb_spec0 attempt (MaxAttempts cfg)); [|lia].
    rewrite Hctx. destruct (Hfn s) as (e & He & HP).
    destruct (fn s) as [r1 s1]. cbn in He. subst r1.
    destruct (Z.eqb_spec attempt (MaxAttempts cfg - 1)); [|lia].
    cbn. eauto.
  - remember (Datatypes.S fuel) as k eqn:Hk.
    cbn [loop]. destruct (Z.ltb_spec0 attempt (MaxAttempts cfg)); [|lia].
    rewrite Hctx. destruct (Hfn s) as (e & He & HP).
    destruct (fn s) as [r1 s1]. cbn in He. subst r1.
    destruct (Z.eqb_spec attempt (MaxAttempts cfg - 1)); [lia|].
    pose proof (Hsel delay s1) as Hs.
    destruct (select_Done_After delay s1) as [dn s2]. cbn in Hs. subst dn.
    specialize (IH (attempt + 1)
      (if scale delay (Multiplier cfg) >? MaxDelay cfg
       then MaxDelay cfg else scale delay (Multiplier cfg))
      (Some e) s2 ltac:(lia)).
    cbn zeta in IH.
    destruct (loop_ k _ _ _ s2) as [[r s3] tr].
    cbn [fst snd] in *. destruct IH as (Ha & Hw & Hr).
    unfold attempts, waits in *. cbn. rewrite Ha, Hw. auto.
Qed.

(** X6.  An exhausted budget.  Under a context that is never done, with
    timers that fire, a unit of work that fails at every call is called
    exactly [MaxAttempts] times, with [MaxAttempts - 1] full backoffs in
    between, and the error [Do] returns is one the unit of work returned
    (any property [P] of all its errors holds of it). *)
Theorem Do_exhausts_budget (P : errors.error -> Prop) (s : S) :
  1 <= MaxAttempts cfg ->
  (forall s, ctx_Err s = None) ->
  (forall d s, fst (select_Done_After d s) = false) ->
  (forall s, exists e, fst (fn s) = Some e /\ P e) ->
  attempts (snd (Do ctx_Err select_Done_After cfg fn s)) = Z.to_nat (MaxAttempts cfg)
  /\ List.length (waits (snd (Do ctx_Err select_Done_After cfg fn s)))
     = (Z.to_nat (MaxAttempts cfg) - 1)%nat
  /\ exists e, fst (fst (Do ctx_Err select_Done_After cfg fn s)) = Some e /\ P e.
Proof.
  intros Hm Hctx Hsel Hfn. unfold Do.
  destruct (Z.to_nat (MaxAttempts cfg)) as [| n] eqn:Hn; [lia|].
  destruct (loop_exhausts P n Hctx Hsel Hfn 0 (Delay cfg) None s
              ltac:(lia)) as (Ha & Hw & Hr).
  repeat split; auto. lia.
Qed.

End RetryLoop.

(** ** The pipeline, stage by stage *)

Section PipelineStages.

Context {W : Type} (rt : goruntime.Runtime W).
Variables (p : pipeline.Pipeline W) (job : pipeline.Job W).

Lemma probeFile_outcome (path : string) (w : W) :
  (exists m, fst (pipeline.probeFile rt p path w) = (Some m, None))
  \/ (exists e, fst (pipeline.probeFile rt p path w) = (None, Some e)).
Proof.
  unfold pipeline.probeFile.
  destruct (ports.Probe (pipeline.executor p) path w) as [[data [e |]] w1];
    [right; eexists; reflexivity|].
  destruct (goruntime.json_Unmarshal rt data) as [probe | e];
    [left | right]; eexists; reflexivity.
Qed.

(** What [Run] can return. *)
Lemma Run_outcome (w : W) :
  (exists r,
      fst (pipeline.Run rt p job w) = (Some r, None)
      /\ model.rInputPath r = pipeline.InputPath job
      /\ model.rOutputPath r = pipeline.OutputPath job
      /\ model.InputMeta r <> None
      /\ model.OutputMeta r <> None)
  \/ (exists e, fst (pipeline.Run rt p job w) = (None, Some e)).
Proof.
  unfold pipeline.Run.
  destruct (pipeline.validateInput p job w) as [[ev |] w1];
    [right; eexists; reflexivity|].
  destruct (probeFile_outcome (pipeline.InputPath job) w1)
    as [(m & Hm) | (e & He)];
    destruct (pipeline.probeFile rt p (pipeline.InputPath job) w1)
      as [[im ie] w2]; cbn [fst] in *.
  2:{ injection He as -> ->. right; eexists; reflexivity. }
  injection Hm as -> ->.
  destruct (pipeline.runFFmpeg p job _) as [[ef |] w4];
    [right; eexists; reflexivity|].
  match goal with
  | |- context [pipeline.probeFile rt p (pipeline.OutputPath job) ?w5] =>
      destruct (probeFile_outcome (pipeline.OutputPath job) w5)
        as [(m' & Hm') | (e' & He')];
      destruct (pipeline.probeFile rt p (pipeline.OutputPath job) w5)
        as [[om oe] w6]; cbn [fst] in *
  end.
  - injection Hm' as -> ->. left. eexists. split; [reflexivity|].
    cbn. repeat split; discriminate.
  - injection He' as -> ->. left. eexists. split; [reflexivity|].
    cbn. repeat split; discriminate.
Qed.

(** X7.  [Run] returns a result or an error, never both and never
    neither.  A result carries the two paths of the job, and neither of
    its metadata pointers is nil. *)
Theorem Run_result_or_error (w : W) :
  (exists r,
      fst (pipeline.Run rt p job w) = (Some r, None)
      /\ model.rInputPath r = pipeline.InputPath job
      /\ model.rOutputPath r = pipeline.OutputPath job
      /\ model.InputMeta r <> None
      /\ model.OutputMeta r <> None)
  \/ (exists e, fst (pipeline.Run rt p job w) = (None, Some e)).
Proof. exact (Run_outcome w). Qed.

(** X8.  A job that fails validation never reaches the executor: [Run]
    returns the error of [validateInput] as it is, in the world
    [validateInput] left, whatever executor the pipeline has. *)
Theorem Run_validation_stops_before_executor (w w1 : W) e
    (ex : ports.FFmpegExecutor W) :
  pipeline.validateInput p job w = (Some e, w1) ->
  pipeline.Run rt (pipeline.NewPipeline ex (pipeline.storage p)) job w
  = ((None, Some e), w1).
Proof.
  intros Hv. unfold pipeline.Run.
  assert (Hv' : pipeline.validateInput
                  (pipeline.NewPipeline ex (pipeline.storage p)) job w
                = (Some e, w1)) by exact Hv.
  now rewrite Hv'.
Qed.

(** The codecs [buildCodecArgs] accepts are the three it knows. *)
Lemma buildCodecArgs_unrecognized (opts : model.ProcessingOptions) :
  ~ recognized (model.oCodec opts) ->
  pipeline.buildCodecArgs opts
  = inr (errors.Errorf ("unsupported codec: " ++ model.oCodec opts) None).
Proof.
  intros H. unfold pipeline.buildCodecArgs, recognized in *.
  destruct (String.eqb_spec (model.oCodec opts) model.CodecOpus);
    [tauto|].
  destruct (String.eqb_spec (model.oCodec opts) model.CodecAAC);
    [tauto|].
  destruct (String.eqb_spec (model.oCodec opts) model.CodecMP3);
    [tauto|].
  reflexivity.
Qed.

(** X9.  An unknown codec is not a validation matter.  A job whose codec
    is none of opus, aac, mp3 passes [validateInput] like any other; once
    its input is probed, [Run] fails with a processing error of stage
    [encode] that names the codec, in the world left by the first
    progress report: the executor is never asked to execute.  The error
    does not classify as a validation error. *)
Theorem Run_unsupported_codec (w w1 w2 : W) inputMeta :
  ~ recognized (model.oCodec (pipeline.Options job)) ->
  pipeline.validateInput p job w = (None, w1) ->
  pipeline.probeFile rt p (pipeline.InputPath job) w1
    = ((inputMeta, None), w2) ->
  pipeline.Run rt p job w
  = ((None,
      Some (errors.NewProcessingError "encode"
              "failed to build codec args"
              (Some (errors.Errorf
                       ("unsupported codec: "
                          ++ model.oCodec (pipeline.Options job)) None)))),
     pipeline.report job progress.StageProbe 5 "input probed" w2)
  /\ errors.As_ValidationError
       (errors.NewProcessingError "encode" "failed to build codec args"
          (Some (errors.Errorf
                   ("unsupported codec: "
                      ++ model.oCodec (pipeline.Options job)) None)))
     = false.
Proof.
  intros Hc Hv Hp. split; [|reflexivity].
  unfold pipeline.Run. rewrite Hv, Hp.
  unfold pipeline.runFFmpeg, pipeline.ffmpegArgs.
  now rewrite (buildCodecArgs_unrecognized _ Hc).
Qed.

End PipelineStages.

(** X10.  [buildCodecArgs] returns an argument vector exactly for the
    codecs opus, aac and mp3, and the vector starts with [-c:a] and the
    encoder of the codec: libopus, aac, libmp3lame. *)
Theorem buildCodecArgs_recognized (opts : model.ProcessingOptions) :
  ((exists args, pipeline.buildCodecArgs opts = inl args)
   <-> recognized (model.oCodec opts))
  /\ forall args,
       pipeline.buildCodecArgs opts = inl args ->
       exists enc rest,
         args = "-c:a" :: enc :: rest
         /\ (model.oCodec opts = model.CodecOpus -> enc = "libopus")
         /\ (model.oCodec opts = model.CodecAAC -> enc = "aac")
         /\ (model.oCodec opts = model.CodecMP3 -> enc = "libmp3lame").
Proof.
  split.
  - split.
    + intros (args & Ha).
      destruct (String.eqb_spec (model.oCodec opts) model.CodecOpus);
        [now left|].
      destruct (String.eqb_spec (model.oCodec opts) model.CodecAAC);
        [now right; left|].
      destruct (String.eqb_spec (model.oCodec opts) model.CodecMP3);
        [now right; right|].
      rewrite buildCodecArgs_unrecognized in Ha; [discriminate|].
      unfold recognized. tauto.
    + intros Hc. destruct (buildCodecArgs_token opts Hc) as (args & Ha & _).
      now exists args.
  - intros args Ha. unfold pipeline.buildCodecArgs in Ha.
    destruct (String.eqb_spec (model.oCodec opts) model.CodecOpus)
      as [Ho | Ho].
    { destruct (String.eqb _ model.BitrateModeVBR);
        injection Ha as <-; do 2 eexists; (split; [reflexivity|]);
        rewrite Ho; repeat split; intros; try reflexivity; discriminate. }
    destruct (String.eqb_spec (model.oCodec opts) model.CodecAAC)
      as [Hc | Hc].
    { destruct (String.eqb _ model.BitrateModeVBR);
        injection Ha as <-; do 2 eexists; (split; [reflexivity|]);
        rewrite Hc; repeat split; intros; try reflexivity; discriminate. }
    destruct (String.eqb_spec (model.oCodec opts) model.CodecMP3)
      as [Hm | Hm]; [|discriminate].
    destruct (String.eqb _ model.BitrateModeVBR);
      injection Ha as <-; do 2 eexists; (split; [reflexivity|]);
      rewrite Hm; repeat split; intros; try reflexivity; discriminate.
Qed.

(** X11.  The argument vector of a job with a known codec is, in this
    order: [-y -i] and the input path; [-af] and the filter chain, present
    exactly when some filter is enabled; [-ar] and the sample rate; the
    codec arguments; the output path. *)
Theorem ffmpegArgs_layout {W : Type} (job : pipeline.Job W) :
  recognized (model.oCodec (pipeline.Options job)) ->
  exists codecArgs,
    pipeline.buildCodecArgs (pipeline.Options job) = inl codecArgs
    /\ pipeline.ffmpegArgs job
       = inl (["-y"; "-i"; pipeline.InputPath job]
                ++ (if any_filter (pipeline.Options job)
                    then ["-af";
                          ffmpeg.Build
                            (pipeline.filterChain (pipeline.Options job))]
                    else [])
                ++ ["-ar";
                    fmt.d (model.oSampleRate (pipeline.Options job))]
                ++ codecArgs ++ [pipeline.OutputPath job])%list.
Proof.
  intros Hc.
  destruct (buildCodecArgs_token _ Hc) as (codecArgs & Ha & _).
  exists codecArgs. split; [exact Ha|].
  unfold pipeline.ffmpegArgs. rewrite Ha.
  unfold any_filter, ffmpeg.Build, pipeline.filterChain.
  destruct (model.HighpassEnabled (pipeline.Options job)),
    (model.LowpassEnabled (pipeline.Options job)),
    (model.NormalizationEnabled (pipeline.Options job));
    cbn [orb ffmpeg.filters ffmpeg.AddHighpass ffmpeg.AddLowpass
         ffmpeg.AddLoudnorm ffmpeg.NewFilterChainBuilder List.app
         String.concat String.append String.eqb];
    reflexivity.
Qed.

Section ProbeFile.

Context {W : Type} (rt : goruntime.Runtime W).
Variables (p : pipeline.Pipeline W) (path : string) (w : W).

(** X12.  [probeFile] fails only if the executor's probe fails, with the
    executor's error, or if the answer is not valid JSON, with an error
    that wraps the decoder's.  Otherwise it succeeds whatever the numeric
    fields contain: the format name is copied; without a stream the codec
    is empty and channels, sample rate and bitrate are zero; with streams
    only the first is read, an unreadable number leaving zero. *)
Theorem probeFile_cases :
  forall data perr w1,
    ports.Probe (pipeline.executor p) path w = ((data, perr), w1) ->
    (forall e, perr = Some e ->
       pipeline.probeFile rt p path w = ((None, Some e), w1))
    /\ (forall e, perr = None ->
        goruntime.json_Unmarshal rt data = inr e ->
        pipeline.probeFile rt p path w
        = ((None,
            Some (errors.Errorf "failed to parse ffprobe output" (Some e))),
           w1))
    /\ (forall probe, perr = None ->
        goruntime.json_Unmarshal rt data = inl probe ->
        exists meta,
          pipeline.probeFile rt p path w = ((Some meta, None), w1)
          /\ model.Format meta
             = goruntime.fFormatName (goruntime.pFormat probe)
          /\ (goruntime.pStreams probe = [] ->
              model.Codec_ meta = "" /\ model.Channels meta = 0
              /\ model.SampleRate meta = 0 /\ model.Bitrate meta = 0)
          /\ (forall s rest,
                goruntime.pStreams probe = s :: rest ->
                model.Codec_ meta = goruntime.sCodecName s
                /\ model.Channels meta = goruntime.sChannels s
                /\ (goruntime.Sscanf_d rt (goruntime.sSampleRate s) = None
                    -> model.SampleRate meta = 0)
                /\ (forall n,
                      goruntime.Sscanf_d rt (goruntime.sSampleRate s)
                        = Some n -> model.SampleRate meta = n))).
Proof.
  intros data perr w1 Hp. unfold pipeline.probeFile. rewrite Hp.
  split; [|split].
  - intros e ->. reflexivity.
  - intros e -> ->. reflexivity.
  - intros probe -> ->.
    destruct (goruntime.pStreams probe) as [| s0 rest0] eqn:Hs;
      eexists; (split; [reflexivity|]); cbn;
      (split; [reflexivity|]); split;
      try (intros; discriminate); auto.
    intros s rest Heq. injection Heq as <- <-.
    repeat split; try reflexivity.
    + intros ->. reflexivity.
    + intros n ->. reflexivity.
Qed.

End ProbeFile.

Section Progress.

Context {W : Type} (rt : goruntime.Runtime W).
Variable p : pipeline.Pipeline W.
Variables (id input output : string) (opts : model.ProcessingOptions).

Abbreviation RT := (recording.runtime rt).
Abbreviation RP := (recording.pipeline_ p).
Abbreviation rjob := (recording.job (W := W) id input output opts).

(** The collaborators leave the kept updates alone. *)
Lemma recording_validateInput (w : W) l :
  snd (snd (pipeline.validateInput RP rjob (w, l))) = l.
Proof.
  unfold pipeline.validateInput. cbn.
  destruct (String.eqb input ""); [reflexivity|].
  destruct (String.eqb output ""); [reflexivity|].
  destruct (ports.Exists (pipeline.storage p) input w)
    as [[ex [e |]] w1]; [reflexivity|].
  destruct ex; cbn; [|reflexivity].
  destruct (model.oBitrate opts <=? 0); [reflexivity|].
  destruct (model.oSampleRate opts <=? 0); reflexivity.
Qed.

Lemma recording_probeFile (path : string) (w : W) l :
  snd (snd (pipeline.probeFile RT RP path (w, l))) = l.
Proof.
  unfold pipeline.probeFile. cbn.
  destruct (ports.Probe (pipeline.executor p) path w)
    as [[data [e |]] w1]; [reflexivity|].
  destruct (goruntime.json_Unmarshal rt data); reflexivity.
Qed.

(** [runFFmpeg] reports the start of the encoding unless the arguments
    cannot be built, and then it fails. *)
Lemma recording_runFFmpeg (w : W) l :
  (snd (snd (pipeline.runFFmpeg RP rjob (w, l))) = l
   /\ fst (pipeline.runFFmpeg RP rjob (w, l)) <> None)
  \/ snd (snd (pipeline.runFFmpeg RP rjob (w, l)))
     = (l ++ [cp_started id])%list.
Proof.
  unfold pipeline.runFFmpeg.
  destruct (pipeline.ffmpegArgs rjob) as [args | e].
  - right. cbn.
    destruct (ports.Execute (pipeline.executor p) args w) as [r w1].
    reflexivity.
  - left. cbn. split; [reflexivity | discriminate].
Qed.

Lemma recording_report (stage : progress.Stage) (pct : Z) (msg : string)
    (w : W) l :
  pipeline.report rjob stage pct msg (w, l)
  = (w, l ++ [checkpoint id stage pct msg])%list.
Proof. reflexivity. Qed.

Ltac stop ups :=
  exists ups; cbn [fst snd];
  rewrite ?app_nil_r, <- ?app_assoc;
  (split; [reflexivity|]); (split; [tauto|]);
  (split; [split; intros; discriminate|]); cbn; lia.

(** X13.  The progress of one run, as a caller who keeps every update
    sees it.  [Run] reports nothing, or [5] (input probed), or [5, 20]
    (encoding started), or [5, 20, 90, 100]; each update carries the id of
    the job; the percentages never go down; and [100] is reported exactly
    when the run succeeds. *)
Theorem Run_progress_checkpoints (w : W) (l : list progress.Update) :
  exists ups,
    snd (snd (pipeline.Run RT RP rjob (w, l))) = (l ++ ups)%list
    /\ (ups = [] \/ ups = [cp_probed id]
        \/ ups = [cp_probed id; cp_started id]
        \/ ups = [cp_probed id; cp_started id; cp_encoded id; cp_done id])
    /\ (snd (fst (pipeline.Run RT RP rjob (w, l))) = None
        <-> ups = [cp_probed id; cp_started id; cp_encoded id; cp_done id])
    /\ nondecreasing (map progress.Percent ups).
Proof.
  unfold pipeline.Run.
  pose proof (recording_validateInput w l) as H1.
  destruct (pipeline.validateInput RP rjob (w, l)) as [[ev |] [w1 l1]];
    cbn [fst snd] in H1; subst l1; [stop (@nil progress.Update)|].
  pose proof (recording_probeFile (pipeline.InputPath rjob) w1 l) as H2.
  destruct (pipeline.probeFile RT RP (pipeline.InputPath rjob) (w1, l))
    as [[im [ie |]] [w2 l2]];
    cbn [fst snd] in H2; subst l2; [stop (@nil progress.Update)|].
  rewrite recording_report.
  pose proof (recording_runFFmpeg w2 (l ++ [cp_probed id])) as H3.
  fold (cp_probed id).
  destruct (pipeline.runFFmpeg RP rjob (w2, (l ++ [cp_probed id])%list))
    as [[ef |] [w4 l4]]; cbn [fst snd] in H3.
  { destruct H3 as [[-> _] | ->].
    - stop [cp_probed id].
    - stop [cp_probed id; cp_started id]. }
  destruct H3 as [[_ H3] | ->]; [congruence|].
  rewrite recording_report.
  match goal with
  | |- context [pipeline.probeFile RT RP ?path (w4, ?l5)] =>
      pose proof (recording_probeFile path w4 l5) as H4;
      destruct (pipeline.probeFile RT RP path (w4, l5))
        as [[om oe] [w6 l6]]; cbn [fst snd] in H4; subst l6
  end.
  rewrite recording_report.
  exists [cp_probed id; cp_started id; cp_encoded id; cp_done id].
  cbn [fst snd]. rewrite <- ?app_assoc.
  split; [reflexivity|]. split; [tauto|]. split; [tauto|]. cbn. lia.
Qed.

End Progress.

(** ** Batch jobs *)

Section ProcessJob.

Import pipeline.

Context {W : Type} (rt : goruntime.Runtime W).
Variables (wp : WorkerPool W) (job : model.BatchJob).
Variable reporter : Reporter_t W.

(** What [processJob] makes of the outcome of [Run]. *)
Lemma processJob_outcome (w : W) :
  (exists r,
      fst (Run rt (wp_pipeline wp) (pipelineJobOf job reporter) w)
        = (Some r, None)
      /\ processJob rt wp job reporter w
         = ((Some r, None),
            snd (Run rt (wp_pipeline wp) (pipelineJobOf job reporter) w)))
  \/ (exists e,
      fst (Run rt (wp_pipeline wp) (pipelineJobOf job reporter) w)
        = (None, Some e)
      /\ processJob rt wp job reporter w
         = ((None,
             Some (errors.Errorf ("job " ++ model.ID job ++ " failed")
                     (Some e))),
            snd (Run rt (wp_pipeline wp) (pipelineJobOf job reporter) w))
      /\ errors.As_ValidationError
           (errors.Errorf ("job " ++ model.ID job ++ " failed") (Some e))
         = errors.As_ValidationError e).
Proof.
  unfold processJob. fold (pipelineJobOf job reporter).
  destruct (Run_outcome rt (wp_pipeline wp)
              (pipelineJobOf job reporter) w)
    as [(r & Hr & _) | (e & He)];
    destruct (Run rt (wp_pipeline wp) (pipelineJobOf job reporter) w)
      as [[res err] w1]; cbn [fst snd] in *.
  - injection Hr as -> ->. left. eauto.
  - injection He as -> ->. right. eauto.
Qed.

(** X14.  [processJob] runs the pipeline on the job built from the batch
    job, with the default options if the batch job has none.  A result is
    passed on as it is.  An error is returned wrapped, without a result,
    under a message that names the job, and it classifies as a validation
    error exactly when the error of the pipeline does. *)
Theorem processJob_wraps_errors (w : W) :
  (exists r,
      fst (Run rt (wp_pipeline wp) (pipelineJobOf job reporter) w)
        = (Some r, None)
      /\ processJob rt wp job reporter w
         = ((Some r, None),
            snd (Run rt (wp_pipeline wp) (pipelineJobOf job reporter) w)))
  \/ (exists e,
      fst (Run rt (wp_pipeline wp) (pipelineJobOf job reporter) w)
        = (None, Some e)
      /\ processJob rt wp job reporter w
         = ((None,
             Some (errors.Errorf ("job " ++ model.ID job ++ " failed")
                     (Some e))),
            snd (Run rt (wp_pipeline wp) (pipelineJobOf job reporter) w))
      /\ errors.As_ValidationError
           (errors.Errorf ("job " ++ model.ID job ++ " failed") (Some e))
         = errors.As_ValidationError e).
Proof. exact (processJob_outcome w). Qed.

(** X15.  A batch job whose options ask for a bitrate of zero or less,
    with both paths given and the input in the store, is refused with an
    error that classifies as a validation error, in the world the
    existence check left: whatever executor the pool's pipeline has, it
    is not contacted. *)
Theorem processJob_refuses_bad_bitrate (w w1 : W)
    (o : model.ProcessingOptions) (ex : ports.FFmpegExecutor W) :
  model.Options job = Some o ->
  model.oBitrate o <= 0 ->
  model.InputPath job <> "" ->
  model.OutputPath job <> "" ->
  ports.Exists (storage (wp_pipeline wp)) (model.InputPath job) w
    = ((true, None), w1) ->
  exists e,
    processJob rt
      {| wp_pipeline := NewPipeline ex (storage (wp_pipeline wp));
         workers := workers wp |} job reporter w
    = ((None, Some e), w1)
    /\ errors.As_ValidationError e = true.
Proof.
  intros Ho Hb Hi Hout He.
  assert (Hv : validateInput (wp_pipeline wp) (pipelineJobOf job reporter) w
               = (Some (errors.NewValidationError "bitrate"
                          (errors.VInt (model.oBitrate o))
                          "bitrate must be positive"), w1)).
  { unfold validateInput, pipelineJobOf. cbn. rewrite Ho.
    apply String.eqb_neq in Hi. apply String.eqb_neq in Hout.
    rewrite Hi, Hout, He. cbn.
    destruct (Z.leb_spec (model.oBitrate o) 0); [reflexivity | lia]. }
  assert (HR : Run rt (NewPipeline ex (storage (wp_pipeline wp)))
                 (pipelineJobOf job reporter) w
               = ((None,
                   Some (errors.NewValidationError "bitrate"
                           (errors.VInt (model.oBitrate o))
                           "bitrate must be positive")), w1)).
  { unfold Run.
    change (validateInput (NewPipeline ex (storage (wp_pipeline wp)))
              (pipelineJobOf job reporter) w)
      with (validateInput (wp_pipeline wp) (pipelineJobOf job reporter) w).
    now rewrite Hv. }
  unfold processJob. fold (pipelineJobOf job reporter).
  cbn [wp_pipeline]. rewrite HR.
  eexists. split; reflexivity.
Qed.

End ProcessJob.

Section PoolResults.

Import pipeline.

Context {W : Type} (rt : goruntime.Runtime W).
Variables (wp : WorkerPool W) (reporter : Reporter_t W).





End PoolResults.

Section PoolBounds.

Import pipeline.

Context {W : Type} (rt : goruntime.Runtime W).

Lemma inside_le_holds (g : list (model.BatchJob * worker_pc)) :
  (List.length (filter inside g) <= List.length (filter holds g))%nat.
Proof.
  induction g as [| [j [| r | |]] g IH]; cbn; lia.
Qed.

(** X16.  In every state a batch can reach, the jobs that are inside the
    pipeline at that moment number at most the worker count of the
    service: the configured count if it is positive, four otherwise. *)
Theorem batch_concurrency_bounded (cfg : usecase.Config W)
    (s : usecase.AudioService W) (jobs : list model.BatchJob) (w : W)
    (st : state W) :
  usecase.NewAudioService cfg = inl s ->
  reachable rt (usecase.workerPool s) (usecase.reporter s)
    (usecase.ProcessBatch s jobs w) st ->
  Z.of_nat (List.length (filter inside (gos st)))
  <= (if usecase.Workers cfg <=? 0 then 4 else usecase.Workers cfg).
Proof.
  intros Hnew Hreach.
  pose proof (NewAudioService_workers cfg s Hnew) as Hw.
  assert (Hinv : invariant (usecase.workerPool s) jobs st).
  { apply (invariant_reachable rt _ (usecase.reporter s) jobs
             (usecase.ProcessBatch s jobs w)); [|exact Hreach].
    apply invariant_ProcessBatch. lia. }
  destruct Hinv as (_ & _ & Hsem & Hb & _).
  unfold holders in Hsem. pose proof (inside_le_holds (gos st)).
  assert (Hwk : workers (usecase.workerPool s)
                = if usecase.Workers cfg <=? 0 then 4
                  else usecase.Workers cfg).
  { unfold usecase.NewAudioService in Hnew.
    destruct (usecase.Executor cfg); [|discriminate].
    destruct (usecase.Storage cfg); [|discriminate].
    injection Hnew as <-. cbn.
    destruct (Z.leb_spec (usecase.Workers cfg) 0); [reflexivity|].
    destruct (Z.leb_spec (usecase.Workers cfg) 0); [lia | reflexivity]. }
  lia.
Qed.


End PoolBounds.

(** ** The service *)

Section ServiceCalls.

Context {W : Type} (rt : goruntime.Runtime W).
Variable s : usecase.AudioService W.
Variables (inputPath outputPath : string) (opts : list ports.Option).

#[local] Abbreviation options := (usecase.applyOptions opts).
#[local] Abbreviation w0_of w := (usecase.withTimeout rt options w).
#[local] Abbreviation job_of w :=
  (usecase.newJob rt s inputPath outputPath options (w0_of w)).
#[local] Abbreviation cfg_of :=
  {| retry.MaxAttempts := model.MaxRetries options;
     retry.Delay := model.RetryDelay options;
     retry.Multiplier := 2 # 1;
     retry.MaxDelay := 30 * model.Second |}.

(** X18.  A call whose options allow no attempt (a retry budget of zero
    or less, as after [WithRetry(0)]) does not run the pipeline at all:
    [retry.Do] returns nil at once, [result] is still nil, and
    [ProcessAudio] panics on it, in the world it started from (with the
    timeout installed). *)
Theorem ProcessAudio_without_budget_panics (w : W) :
  model.MaxRetries options <= 0 ->
  usecase.ProcessAudio rt s inputPath outputPath opts w
  = (usecase.Panicked "nil pointer dereference", w0_of w).
Proof.
  intros Hm. unfold usecase.ProcessAudio, usecase.ProcessAudio_retry.
  rewrite (Do_zero_budget (usecase.ctxErr rt) (usecase.backoff rt) cfg_of
             (usecase.attempt rt s (job_of w)) (w0_of w, None) Hm).
  reflexivity.
Qed.

(** X19.  A call under a context that is already done (and a budget of
    at least one attempt) returns the context's error and no result, and
    does not run the pipeline. *)
Theorem ProcessAudio_context_done (w : W) e :
  1 <= model.MaxRetries options ->
  goruntime.ctx_Err rt (w0_of w) = Some e ->
  usecase.ProcessAudio rt s inputPath outputPath opts w
  = (usecase.Returned None (Some e), w0_of w).
Proof.
  intros Hm Hc. unfold usecase.ProcessAudio, usecase.ProcessAudio_retry.
  rewrite (Do_context_done (usecase.ctxErr rt) (usecase.backoff rt)
             cfg_of (usecase.attempt rt s (job_of w)) (w0_of w, None)
             e Hm Hc).
  reflexivity.
Qed.

(** X20.  A call whose first pipeline run succeeds returns the result of
    that run and a nil error, after that single run. *)
Theorem ProcessAudio_first_run_succeeds (w w1 : W) r :
  1 <= model.MaxRetries options ->
  goruntime.ctx_Err rt (w0_of w) = None ->
  pipeline.Run rt (usecase.pipeline_ s) (job_of w) (w0_of w)
    = ((Some r, None), w1) ->
  usecase.ProcessAudio rt s inputPath outputPath opts w
  = (usecase.Returned (Some r) None, w1)
  /\ snd (usecase.ProcessAudio_retry rt s inputPath outputPath opts w)
     = [retry.Attempt].
Proof.
  intros Hm Hc Hr.
  assert (HD : usecase.ProcessAudio_retry rt s inputPath outputPath opts w
               = (None, (w1, Some r), [retry.Attempt])).
  { unfold usecase.ProcessAudio_retry, retry.Do. cbn [retry.MaxAttempts].
    destruct (Z.to_nat (model.MaxRetries options)) as [| n] eqn:Hn; [lia|].
    apply loop_last; auto; cbn [retry.MaxAttempts]; try lia.
    unfold usecase.attempt. cbn [fst]. rewrite Hr. reflexivity. }
  unfold usecase.ProcessAudio. rewrite HD. split; reflexivity.
Qed.

(** X21.  A call whose pipeline run fails every time with an error that
    is not a validation error returns an error and no result: it neither
    panics nor reports success, whatever the budget of at least one
    attempt.  (A context that wins a backoff is taken to have a non-nil
    error.) *)
Theorem ProcessAudio_persistent_failure (w : W) :
  1 <= model.MaxRetries options ->
  (forall w', exists e,
      snd (fst (pipeline.Run rt (usecase.pipeline_ s) (job_of w) w'))
        = Some e
      /\ usecase.isValidationError e = false) ->
  (forall d w',
      fst (goruntime.select_Done_After rt d w') = true ->
      goruntime.ctx_Err rt (snd (goruntime.select_Done_After rt d w'))
        <> None) ->
  exists e,
    fst (usecase.ProcessAudio rt s inputPath outputPath opts w)
    = usecase.Returned None (Some e).
Proof.
  intros Hm Hrun Hsel.
  assert (HD :
    (forall st, fst (usecase.attempt rt s (job_of w) st) <> None) ->
    (forall d st,
        fst (usecase.backoff rt d st) = true ->
        usecase.ctxErr rt (snd (usecase.backoff rt d st)) <> None) ->
    fst (fst (retry.Do (usecase.ctxErr rt) (usecase.backoff rt) cfg_of
                (usecase.attempt rt s (job_of w)) (w0_of w, None)))
    <> None).
  { intros H1 H2. unfold retry.Do.
    apply loop_reports_failure; auto. right.
    cbn [retry.MaxAttempts]. split; lia. }
  unfold usecase.ProcessAudio, usecase.ProcessAudio_retry.
  destruct (retry.Do _ _ _ _ _) as [[err [w1 res]] tr].
  cbn [fst] in HD.
  destruct err as [e |].
  - exists e. reflexivity.
  - exfalso. apply HD; [| | reflexivity].
    + intros [w' r']. unfold usecase.attempt. cbn [fst].
      destruct (Hrun w') as (e & He & Hv).
      destruct (pipeline.Run rt (usecase.pipeline_ s) (job_of w) w')
        as [[res' err'] w'']. cbn [fst snd] in He. subst err'.
      rewrite Hv. discriminate.
    + intros d [w' r'] Hd. unfold usecase.backoff, usecase.ctxErr in *.
      cbn [fst snd] in *. specialize (Hsel d w').
      destruct (goruntime.select_Done_After rt d w') as [dn w''].
      cbn [fst snd] in *. auto.
Qed.

(** X22.  [ProbeAudio] asks the store first.  If the check fails it
    returns a processing error of stage [probe] wrapping the store's
    error; if the file is not there it returns a validation error on
    [inputPath]; in both cases the world is the one the check left, so
    the executor has not been asked to probe.  Only for a file that is
    there does it probe, and then it returns what [probeFile] returns. *)
Theorem ProbeAudio_checks_store_first (w w1 : W) (found : bool) serr :
  ports.Exists (usecase.storage s) inputPath w = ((found, serr), w1) ->
  (forall e, serr = Some e ->
     usecase.ProbeAudio rt s inputPath w
     = ((None, Some (errors.NewProcessingError "probe"
                       "failed to check file" (Some e))), w1))
  /\ (serr = None -> found = false ->
      usecase.ProbeAudio rt s inputPath w
      = ((None, Some (errors.NewValidationError "inputPath"
                        (errors.VString inputPath)
                        "file does not exist")), w1))
  /\ (serr = None -> found = true ->
      usecase.ProbeAudio rt s inputPath w
      = pipeline.probeFile rt (usecase.pipeline_ s) inputPath w1).
Proof.
  intros He. unfold usecase.ProbeAudio. rewrite He.
  split; [|split].
  - intros e ->. reflexivity.
  - intros -> ->. reflexivity.
  - intros -> ->. reflexivity.
Qed.

End ServiceCalls.

(** X23.  [ProcessAudio] takes its retry budget from the options of the
    call.  The retry configuration stored in the service, the worker pool
    and the store have no part in it: two services with the same pipeline
    and the same reporter behave alike on every call. *)
Theorem ProcessAudio_ignores_service_retry {W : Type}
    (rt : goruntime.Runtime W) (s s' : usecase.AudioService W)
    (inputPath outputPath : string) (opts : list ports.Option) (w : W) :
  usecase.pipeline_ s = usecase.pipeline_ s' ->
  usecase.reporter s = usecase.reporter s' ->
  usecase.ProcessAudio rt s inputPath outputPath opts w
  = usecase.ProcessAudio rt s' inputPath outputPath opts w.
Proof.
  intros Hp Hr.
  unfold usecase.ProcessAudio, usecase.ProcessAudio_retry,
    usecase.newJob, usecase.attempt.
  rewrite Hp, Hr. reflexivity.
Qed.

(** X24.  [NewAudioService] fails exactly when the executor or the store
    is missing.  The service it builds has a reporter (the given one, or
    one that discards), at least one worker, a retry configuration whose
    [MaxAttempts] is not zero, and a pool that runs the service's own
    pipeline over the given executor and store. *)
Theorem NewAudioService_defaults {W : Type} (cfg : usecase.Config W) :
  ((exists s, usecase.NewAudioService cfg = inl s)
   <-> usecase.Executor cfg <> None /\ usecase.Storage cfg <> None)
  /\ forall s,
       usecase.NewAudioService cfg = inl s ->
       usecase.reporter s <> None
       /\ (forall r, usecase.Reporter cfg = Some r ->
             usecase.reporter s = Some r)
       /\ 1 <= pipeline.workers (usecase.workerPool s)
       /\ (0 < usecase.Workers cfg ->
           pipeline.workers (usecase.workerPool s) = usecase.Workers cfg)
       /\ retry.MaxAttempts (usecase.retryCfg s) <> 0
       /\ pipeline.wp_pipeline (usecase.workerPool s) = usecase.pipeline_ s
       /\ Some (pipeline.executor (usecase.pipeline_ s))
          = usecase.Executor cfg
       /\ Some (pipeline.storage (usecase.pipeline_ s))
          = usecase.Storage cfg.
Proof.
  unfold usecase.NewAudioService.
  destruct (usecase.Executor cfg) as [ex |];
    [|split; [split; [intros (s & H); discriminate | intros [H _]; tauto]
             | intros s H; discriminate]].
  destruct (usecase.Storage cfg) as [st |];
    [|split; [split; [intros (s & H); discriminate | intros [_ H]; tauto]
             | intros s H; discriminate]].
  split.
  - split; [intros _; split; discriminate | intros _; eexists; reflexivity].
  - intros s H. injection H as <-. cbn.
    repeat split.
    + destruct (usecase.Reporter cfg); discriminate.
    + intros r ->. reflexivity.
    + destruct (Z.leb_spec (usecase.Workers cfg) 0);
        [cbn; lia|].
      destruct (Z.leb_spec (usecase.Workers cfg) 0); lia.
    + intros Hw.
      destruct (Z.leb_spec (usecase.Workers cfg) 0); [lia|].
      destruct (Z.leb_spec (usecase.Workers cfg) 0); [lia | reflexivity].
    + destruct (Z.eqb_spec (retry.MaxAttempts (usecase.RetryConfig cfg)) 0);
        [cbn; lia | assumption].
Qed.

(** ** Job identifiers *)

Lemma length_substring (s : string) :
  forall n m,
    String.length (substring n m s) = Nat.min m (String.length s - n).
Proof.
  induction s as [| c s IH]; intros n m.
  - destruct n, m; reflexivity.
  - destruct n as [| n].
    + destruct m as [| m]; [reflexivity|]. cbn. now rewrite IH, Nat.sub_0_r.
    + cbn. apply IH.
Qed.

Lemma length_map_bytes f (s : string) :
  String.length (usecase.map_bytes f s) = String.length s.
Proof. induction s as [| c s IH]; cbn; congruence. Qed.

Lemma isAlnum_underscore : usecase.isAlnum "_"%char = false.
Proof. reflexivity. Qed.

Lemma clean_map_bytes (s : string) :
  all_bytes clean_byte
    (usecase.map_bytes
       (fun c => if usecase.isAlnum c then c else "_"%char) s) = true.
Proof.
  induction s as [| c s IH]; [reflexivity|]. cbn [usecase.map_bytes all_bytes].
  rewrite IH, andb_true_r. unfold clean_byte.
  destruct (usecase.isAlnum c) eqn:Hc; [now rewrite Hc|].
  reflexivity.
Qed.

Lemma map_bytes_clean_id (s : string) :
  all_bytes clean_byte s = true ->
  usecase.map_bytes (fun c => if usecase.isAlnum c then c else "_"%char) s
  = s.
Proof.
  induction s as [| c s IH]; [reflexivity|]. cbn [usecase.map_bytes all_bytes].
  intros H. apply andb_prop in H as [Hc Hs]. rewrite (IH Hs).
  unfold clean_byte in Hc. destruct (usecase.isAlnum c); [reflexivity|].
  cbn in Hc. apply Ascii.eqb_eq in Hc. now subst c.
Qed.

(** X25.  [sanitize] yields at most twenty bytes, the length of its
    input if that is less, every one of them a letter, a digit or an
    underscore; sanitizing twice changes nothing more. *)
Theorem sanitize_clean (s : string) :
  String.length (usecase.sanitize s) = Nat.min (String.length s) 20
  /\ all_bytes clean_byte (usecase.sanitize s) = true
  /\ usecase.sanitize (usecase.sanitize s) = usecase.sanitize s.
Proof.
  assert (Hlen : String.length (usecase.sanitize s)
                 = Nat.min (String.length s) 20).
  { unfold usecase.sanitize. rewrite length_map_bytes.
    destruct (Nat.ltb_spec 20 (String.length s)).
    - rewrite length_substring. lia.
    - lia. }
  assert (Hclean : all_bytes clean_byte (usecase.sanitize s) = true)
    by apply clean_map_bytes.
  split; [exact Hlen|]. split; [exact Hclean|].
  unfold usecase.sanitize at 1.
  destruct (Nat.ltb_spec 20 (String.length (usecase.sanitize s))); [lia|].
  now apply map_bytes_clean_id.
Qed.

(** ** The filter chain builder *)

Lemma append_assoc (a b c : string) : (a ++ b) ++ c = a ++ (b ++ c).
Proof. induction a as [| x a IH]; cbn; congruence. Qed.

Lemma concat_snoc (sep : string) (l : list string) (x : string) :
  l <> [] ->
  String.concat sep (l ++ [x]) = String.concat sep l ++ sep ++ x.
Proof.
  induction l as [| a l IH]; [congruence|]. intros _.
  destruct l as [| b l]; [reflexivity|].
  change (String.concat sep ((a :: b :: l) ++ [x]))
    with (a ++ sep ++ String.concat sep ((b :: l) ++ [x])).
  rewrite IH by discriminate.
  change (String.concat sep (a :: b :: l))
    with (a ++ sep ++ String.concat sep (b :: l)).
  now rewrite !append_assoc.
Qed.

Lemma Build_snoc (b : ffmpeg.FilterChainBuilder) (x : string) :
  String.concat "," (ffmpeg.filters b ++ [x])
  = if ffmpeg.IsEmpty b then x else ffmpeg.Build b ++ "," ++ x.
Proof.
  unfold ffmpeg.IsEmpty, ffmpeg.Build.
  destruct (ffmpeg.filters b) as [| a l] eqn:Hf; [reflexivity|].
  apply concat_snoc. discriminate.
Qed.

(** X26.  Each adder puts its filter after those already in the builder:
    the chain built afterwards is the filter alone if the builder was
    empty, and otherwise the old chain, a comma, and the filter. *)
Theorem builder_appends (b : ffmpeg.FilterChainBuilder) :
  (forall f,
      ffmpeg.Build (ffmpeg.AddHighpass f b)
      = if ffmpeg.IsEmpty b then "highpass=f=" ++ fmt.d f
        else ffmpeg.Build b ++ "," ++ "highpass=f=" ++ fmt.d f)
  /\ (forall f,
      ffmpeg.Build (ffmpeg.AddLowpass f b)
      = if ffmpeg.IsEmpty b then "lowpass=f=" ++ fmt.d f
        else ffmpeg.Build b ++ "," ++ "lowpass=f=" ++ fmt.d f)
  /\ (forall i tp lra,
      ffmpeg.Build (ffmpeg.AddLoudnorm i tp lra b)
      = if ffmpeg.IsEmpty b
        then "loudnorm=I=" ++ fmt.f1 i ++ ":TP=" ++ fmt.f1 tp
               ++ ":LRA=" ++ fmt.f1 lra
        else ffmpeg.Build b ++ "," ++ "loudnorm=I=" ++ fmt.f1 i
               ++ ":TP=" ++ fmt.f1 tp ++ ":LRA=" ++ fmt.f1 lra)
  /\ (forall hz,
      ffmpeg.Build (ffmpeg.AddResample hz b)
      = if ffmpeg.IsEmpty b then "aresample=" ++ fmt.d hz
        else ffmpeg.Build b ++ "," ++ "aresample=" ++ fmt.d hz).
Proof.
  repeat split; intros; apply Build_snoc.
Qed.

Lemma concat_nonempty (sep : string) (l : list string) :
  l <> [] -> Forall (fun s => s <> "") l -> String.concat sep l <> "".
Proof.
  destruct l as [| a l]; [congruence|]. intros _ H.
  inversion H as [| ? ? Ha _]; subst.
  destruct a as [| c a]; [congruence|].
  destruct l; cbn; discriminate.
Qed.

Lemma built_filters_nonempty (b : ffmpeg.FilterChainBuilder) :
  built b -> Forall (fun s => s <> "") (ffmpeg.filters b).
Proof.
  induction 1; cbn [ffmpeg.filters ffmpeg.NewFilterChainBuilder
                    ffmpeg.AddHighpass ffmpeg.AddLowpass
                    ffmpeg.AddLoudnorm ffmpeg.AddResample];
    [constructor | ..];
    (apply Forall_app; split; [assumption|]);
    constructor; try constructor; cbn; discriminate.
Qed.

(** X27.  For a builder made with the adders, the chain is the empty
    string exactly when the builder is empty, and that is the case only
    for the new builder: no sequence of additions yields an empty chain. *)
Theorem built_chain_empty (b : ffmpeg.FilterChainBuilder) :
  built b ->
  (ffmpeg.Build b = "" <-> ffmpeg.IsEmpty b = true)
  /\ (ffmpeg.IsEmpty b = true <-> b = ffmpeg.NewFilterChainBuilder).
Proof.
  intros Hb. pose proof (built_filters_nonempty b Hb) as Hne.
  unfold ffmpeg.Build, ffmpeg.IsEmpty.
  destruct b as [fs]. cbn [ffmpeg.filters] in *.
  destruct fs as [| a l].
  - repeat split; reflexivity.
  - split; split; intros H; try discriminate.
    exfalso. revert H. apply concat_nonempty; [discriminate | exact Hne].
Qed.

Lemma built_chain_empty_witness :
  ffmpeg.Build (ffmpeg.AddResample 48000 ffmpeg.NewFilterChainBuilder)
  <> "".
Proof.
  intros H.
  apply (proj1 (built_chain_empty _
                  (built_resample 48000 _ built_new))) in H.
  discriminate.
Defined.

(** ** Errors *)

Lemma As_chain_fix :
  forall e,
    errors.As_ValidationError e
    = existsb errors.is_validation (errors.chain e).
Proof.
  fix IH 1. intros e.
  destruct e as [c m [cause |] st | c m [cause |] a x se
                | c m [cause |] f v | m [cause |] | | | m];
    cbn [errors.As_ValidationError errors.chain existsb
         errors.is_validation orb];
    try reflexivity; apply IH.
Qed.

(** X28.  [errors.As] for validation errors looks down the whole chain
    of causes: an error classifies as a validation error exactly when it
    or one of the errors it wraps, directly or not, is one.  So wrapping
    an error in a processing error, an ffmpeg error or [fmt.Errorf] with
    [%w] keeps its classification, and an error built without a cause by
    [NewProcessingError] or [NewFFmpegError] never classifies. *)
Theorem As_follows_chain (e : errors.error) :
  errors.As_ValidationError e
  = existsb errors.is_validation (errors.chain e)
  /\ (forall stage msg,
        errors.As_ValidationError
          (errors.NewProcessingError stage msg (Some e))
        = errors.As_ValidationError e)
  /\ (forall msg args code stderr,
        errors.As_ValidationError
          (errors.NewFFmpegError msg args code stderr (Some e))
        = errors.As_ValidationError e)
  /\ (forall msg,
        errors.As_ValidationError (errors.Errorf msg (Some e))
        = errors.As_ValidationError e)
  /\ (forall stage msg,
        errors.As_ValidationError
          (errors.NewProcessingError stage msg None) = false)
  /\ (forall field v msg,
        errors.As_ValidationError (errors.NewValidationError field v msg)
        = true).
Proof.
  split; [apply As_chain_fix|]. repeat split.
Qed.

Lemma length_append (a b : string) :
  String.length (a ++ b) = (String.length a + String.length b)%nat.
Proof. induction a as [| x a IH]; cbn; congruence. Qed.

Lemma substring_0_append (a b : string) :
  substring 0 (String.length a) (a ++ b) = a.
Proof.
  induction a as [| x a IH]; cbn.
  - destruct b; reflexivity.
  - now rewrite IH.
Qed.

(** X29.  [truncate(s, n)] returns [s] itself when [s] has at most [n]
    bytes; otherwise it returns [n + 3] bytes, the first [n] bytes of [s]
    followed by three dots. *)
Theorem truncate_bounds (s : string) (n : nat) :
  ((String.length s <= n)%nat -> errors.truncate s n = s)
  /\ ((n < String.length s)%nat ->
      String.length (errors.truncate s n) = (n + 3)%nat
      /\ substring 0 n (errors.truncate s n) = substring 0 n s
      /\ substring n 3 (errors.truncate s n) = "...").
Proof.
  unfold errors.truncate. split; intros H.
  - destruct (Nat.leb_spec (String.length s) n); [reflexivity | lia].
  - destruct (Nat.leb_spec (String.length s) n); [lia|].
    assert (Hl : String.length (substring 0 n s) = n)
      by (rewrite length_substring; lia).
    split; [|split].
    + rewrite length_append, Hl. reflexivity.
    + rewrite <- Hl at 1. apply substring_0_append.
    + rewrite <- Hl at 1. clear.
      induction (substring 0 n s) as [| c t IH]; [reflexivity|].
      exact IH.
Qed.

Lemma truncate_bounds_witness :
  errors.truncate "exit status 1" 200 = "exit status 1"
  /\ String.length (errors.truncate "exit status 1" 4) = 7%nat.
Proof.
  split.
  - apply (proj1 (truncate_bounds "exit status 1" 200)). cbn. lia.
  - apply (proj2 (truncate_bounds "exit status 1" 4)). cbn. lia.
Defined.

(** ** The channel reporter *)

(** X30.  Reports on a channel nobody is reading never block and never
    overfill it: the updates that fit are queued in the order they were
    reported, behind what was queued already, and the rest are dropped;
    the capacity is unchanged.  The receiver then gets the oldest update
    first. *)
Theorem channel_reporter_drops_overflow (us : list progress.Update)
    (ch : progress.chan) :
  progress.queue (report_all us ch)
  = (progress.queue ch
       ++ firstn (progress.capacity ch - List.length (progress.queue ch))
            us)%list
  /\ progress.capacity (report_all us ch) = progress.capacity ch
  /\ (forall u q, progress.queue (report_all us ch) = u :: q ->
        progress.receive (report_all us ch)
        = (Some u, {| progress.queue := q;
                      progress.capacity := progress.capacity ch |})).
Proof.
  assert (H : progress.queue (report_all us ch)
              = (progress.queue ch
                   ++ firstn (progress.capacity ch
                              - List.length (progress.queue ch)) us)%list
              /\ progress.capacity (report_all us ch)
                 = progress.capacity ch).
  { revert ch. induction us as [| u us IH]; intros ch.
    - cbn. rewrite firstn_nil, app_nil_r. auto.
    - unfold report_all in *. cbn [fold_left].
      destruct (IH (progress.ChannelReporter_Report u ch)) as [Hq Hc].
      rewrite Hq, Hc. unfold progress.ChannelReporter_Report.
      destruct (Nat.ltb_spec (List.length (progress.queue ch))
                  (progress.capacity ch)) as [Hlt | Hge];
        cbn [progress.queue progress.capacity].
      + rewrite length_app. cbn [List.length].
        replace (progress.capacity ch - List.length (progress.queue ch))%nat
          with (Datatypes.S (progress.capacity ch
                  - (List.length (progress.queue ch) + 1)))%nat by lia.
        cbn [firstn]. rewrite <- app_assoc. auto.
      + replace (progress.capacity ch - List.length (progress.queue ch))%nat
          with 0%nat by lia.
        cbn [firstn]. auto. }
  destruct H as [Hq Hc]. split; [exact Hq|]. split; [exact Hc|].
  intros u q Hu. unfold progress.receive. rewrite Hu, Hc. reflexivity.
Qed.

(** ** The further properties at work *)

Lemma Do_without_attempt_witness :
  retry.Do mocks.liveContext mocks.timerWins
    {| retry.MaxAttempts := -1; retry.Delay := model.Second;
       retry.Multiplier := 2 # 1; retry.MaxDelay := 30 * model.Second |}
    mocks.alwaysFails 0%nat
  = (None, 0%nat, [])
  /\ retry.Do mocks.doneContext mocks.timerWins retry.DefaultConfig
       mocks.alwaysFails 0%nat
     = (Some errors.Canceled, 0%nat, []).
Proof.
  split.
  - apply (proj1 (Do_without_attempt mocks.liveContext mocks.timerWins
                    _ mocks.alwaysFails 0%nat)).
    cbn. lia.
  - apply (proj2 (Do_without_attempt mocks.doneContext mocks.timerWins
                    retry.DefaultConfig mocks.alwaysFails 0%nat)).
    + cbn. lia.
    + reflexivity.
Defined.

Lemma Do_reports_failure_witness :
  fst (fst (retry.Do mocks.liveContext mocks.timerWins retry.DefaultConfig
              mocks.alwaysFails 0%nat)) <> None.
Proof.
  apply (Do_reports_failure mocks.liveContext mocks.timerWins
           retry.DefaultConfig mocks.alwaysFails 0%nat).
  - cbn. lia.
  - intros n. discriminate.
  - intros d n H. discriminate.
Defined.

Lemma Do_exhausts_budget_witness :
  retry.attempts
    (snd (retry.Do mocks.liveContext mocks.timerWins retry.DefaultConfig
            mocks.alwaysFails 0%nat)) = 3%nat
  /\ List.length
       (retry.waits
          (snd (retry.Do mocks.liveContext mocks.timerWins
                  retry.DefaultConfig mocks.alwaysFails 0%nat))) = 2%nat.
Proof.
  destruct (Do_exhausts_budget mocks.liveContext mocks.timerWins
              retry.DefaultConfig mocks.alwaysFails
              (fun e => e = errors.Foreign "exit status 1") 0%nat)
    as (Ha & Hw & _).
  - cbn. lia.
  - reflexivity.
  - reflexivity.
  - intros n. eexists. split; reflexivity.
  - split; [exact Ha | exact Hw].
Defined.

Lemma Run_validation_stops_before_executor_witness :
  pipeline.Run mocks.runtime
    (pipeline.NewPipeline (mocks.executor mocks.executeFails)
       (pipeline.storage mocks.plainPipeline))
    mocks.jobNoInput mocks.world0
  = ((None, Some (errors.NewValidationError "inputPath"
                    (errors.VString "")
                    "input path must not be empty")), mocks.world0).
Proof.
  apply (Run_validation_stops_before_executor mocks.runtime
           mocks.plainPipeline mocks.jobNoInput mocks.world0 mocks.world0).
  reflexivity.
Defined.

Lemma Run_unsupported_codec_witness :
  mocks.ExecutedArgs
    (snd (pipeline.Run mocks.runtime mocks.plainPipeline mocks.jobFlac
            mocks.world0)) = [].
Proof.
  rewrite (proj1 (Run_unsupported_codec mocks.runtime mocks.plainPipeline
                    mocks.jobFlac mocks.world0 mocks.world0
                    (snd (mocks.mock_Probe mocks.plainExecutor "in.wav"
                            mocks.world0))
                    (fst (fst (pipeline.probeFile mocks.runtime
                                 mocks.plainPipeline "in.wav"
                                 mocks.world0)))
                    ltac:(intros [H | [H | H]]; discriminate)
                    eq_refl ltac:(vm_compute; reflexivity))).
  reflexivity.
Defined.

Lemma buildCodecArgs_recognized_witness :
  exists args,
    pipeline.buildCodecArgs model.DefaultProcessingOptions = inl args.
Proof.
  apply (proj2 (proj1 (buildCodecArgs_recognized
                         model.DefaultProcessingOptions))).
  left. reflexivity.
Defined.

Lemma ffmpegArgs_layout_witness :
  exists codecArgs,
    pipeline.ffmpegArgs
      {| pipeline.ID := "j"; pipeline.InputPath := "in.wav";
         pipeline.OutputPath := "out.mp3"; pipeline.TempPath := "";
         pipeline.Options :=
           ports.WithCodec model.CodecMP3 model.DefaultProcessingOptions;
         pipeline.Reporter := @None (progress.Update -> mocks.World
                                     -> mocks.World) |}
    = inl ("-y" :: "-i" :: "in.wav" :: "-af"
           :: "loudnorm=I=-23.0:TP=-1.0:LRA=7.0" :: "-ar" :: "48000"
           :: codecArgs ++ ["out.mp3"])%list.
Proof.
  destruct (ffmpegArgs_layout
              {| pipeline.ID := "j"; pipeline.InputPath := "in.wav";
                 pipeline.OutputPath := "out.mp3"; pipeline.TempPath := "";
                 pipeline.Options :=
                   ports.WithCodec model.CodecMP3
                     model.DefaultProcessingOptions;
                 pipeline.Reporter := @None (progress.Update -> mocks.World
                                             -> mocks.World) |})
    as (codecArgs & _ & H).
  - right. right. reflexivity.
  - exists codecArgs. rewrite H. vm_compute. reflexivity.
Defined.

Lemma probeFile_cases_witness :
  exists meta,
    pipeline.probeFile mocks.runtime mocks.plainPipeline "in.wav"
      mocks.world0
    = ((Some meta, None),
       snd (mocks.mock_Probe mocks.plainExecutor "in.wav" mocks.world0))
    /\ model.Format meta = "wav".
Proof.
  destruct (proj2 (proj2 (probeFile_cases mocks.runtime mocks.plainPipeline
              "in.wav" mocks.world0 mocks.defaultProbeResponse None
              (snd (mocks.mock_Probe mocks.plainExecutor "in.wav"
                      mocks.world0)) eq_refl))
              mocks.defaultProbeOutput eq_refl
              ltac:(vm_compute; reflexivity))
    as (meta & Hm & Hf & _).
  exists meta. split; [exact Hm | exact Hf].
Defined.

Lemma processJob_refuses_bad_bitrate_witness :
  exists e,
    pipeline.processJob mocks.runtime
      {| pipeline.wp_pipeline :=
           pipeline.NewPipeline (mocks.executor mocks.executeFails)
             (pipeline.storage mocks.plainPipeline);
         pipeline.workers := 2 |}
      mocks.jobBadBitrate None mocks.world0
    = ((None, Some e), mocks.world0)
    /\ errors.As_ValidationError e = true.
Proof.
  apply (processJob_refuses_bad_bitrate mocks.runtime
           {| pipeline.wp_pipeline := mocks.plainPipeline;
              pipeline.workers := 2 |}
           mocks.jobBadBitrate None mocks.world0 mocks.world0
           (ports.WithBitrate (-1) model.DefaultProcessingOptions)
           (mocks.executor mocks.executeFails)).
  - reflexivity.
  - cbn. lia.
  - discriminate.
  - discriminate.
  - reflexivity.
Defined.

(** The state of a batch of one job just after its admission. *)
Lemma admitted_reachable :
  pipeline.reachable mocks.runtime
    (usecase.workerPool mocks.plainService)
    (usecase.reporter mocks.plainService)
    (usecase.ProcessBatch mocks.plainService [mocks.jobA] mocks.world0)
    {| pipeline.world := mocks.world0; pipeline.jobCh := [];
       pipeline.semaphore := 0 + 1; pipeline.wg := 0 + 1;
       pipeline.gos := [] ++ [(mocks.jobA, pipeline.Processing)];
       pipeline.cap := 1; pipeline.buffer := []; pipeline.closed := false;
       pipeline.dpc := pipeline.Ranging; pipeline.received := [];
       pipeline.eof := false |}.
Proof.
  eapply pipeline.reach_prog; [apply pipeline.reach_init|].
  apply pipeline.ps_dispatcher. apply pipeline.d_admit. reflexivity.
Qed.

Lemma batch_concurrency_bounded_witness :
  Z.of_nat
    (List.length
       (filter inside ([] ++ [(mocks.jobA, pipeline.Processing)])))
  <= 4.
Proof.
  apply (batch_concurrency_bounded mocks.runtime mocks.plainConfig
           mocks.plainService [mocks.jobA] mocks.world0 _ eq_refl
           admitted_reachable).
Defined.


Lemma ProcessAudio_without_budget_panics_witness :
  usecase.ProcessAudio mocks.runtime mocks.plainService "in.wav"
    "out.opus" [ports.WithRetry 0] mocks.world0
  = (usecase.Panicked "nil pointer dereference", mocks.world0).
Proof.
  apply (ProcessAudio_without_budget_panics mocks.runtime
           mocks.plainService "in.wav" "out.opus" [ports.WithRetry 0]
           mocks.world0).
  cbn. lia.
Defined.

Lemma ProcessAudio_context_done_witness :
  usecase.ProcessAudio mocks.runtime mocks.plainService "in.wav"
    "out.opus" [] mocks.cancelled0
  = (usecase.Returned None (Some errors.Canceled), mocks.cancelled0).
Proof.
  apply (ProcessAudio_context_done mocks.runtime mocks.plainService
           "in.wav" "out.opus" [] mocks.cancelled0 errors.Canceled).
  - cbn. lia.
  - reflexivity.
Defined.

Lemma ProcessAudio_first_run_succeeds_witness :
  exists r w1,
    usecase.ProcessAudio mocks.runtime mocks.plainService "in.wav"
      "out.opus" [] mocks.world0
    = (usecase.Returned (Some r) None, w1)
    /\ mocks.ExecutedArgs w1
       = [ ["-y"; "-i"; "in.wav"; "-af";
            "loudnorm=I=-23.0:TP=-1.0:LRA=7.0"; "-ar"; "48000";
            "-c:a"; "libopus"; "-vbr"; "off"; "-b:a"; "128k";
            "out.opus"] ].
Proof.
  eexists. eexists. split.
  - apply (ProcessAudio_first_run_succeeds mocks.runtime
             mocks.plainService "in.wav" "out.opus" [] mocks.world0).
    + cbn. lia.
    + reflexivity.
    + vm_compute. reflexivity.
  - reflexivity.
Defined.

Lemma ProcessAudio_persistent_failure_witness :
  exists e,
    fst (usecase.ProcessAudio mocks.runtime mocks.failingService "in.wav"
           "out.opus" [] mocks.world0)
    = usecase.Returned None (Some e).
Proof.
  apply (ProcessAudio_persistent_failure mocks.runtime
           mocks.failingService "in.wav" "out.opus" [] mocks.world0).
  - cbn. lia.
  - intros w'. eexists. split; [vm_compute; reflexivity | reflexivity].
  - intros d w' H. cbn in *. destruct (mocks.ctx w') eqn:Hc.
    + cbn. rewrite Hc. discriminate.
    + discriminate.
Defined.

Lemma ProbeAudio_checks_store_first_witness :
  usecase.ProbeAudio mocks.runtime
    {| usecase.pipeline_ := mocks.plainPipeline;
       usecase.workerPool := pipeline.NewWorkerPool mocks.plainPipeline 4;
       usecase.storage := mocks.storage mocks.emptyStorage;
       usecase.reporter := None;
       usecase.retryCfg := retry.DefaultConfig |}
    "in.wav" mocks.world0
  = ((None, Some (errors.NewValidationError "inputPath"
                    (errors.VString "in.wav") "file does not exist")),
     mocks.world0).
Proof.
  apply (proj1 (proj2 (ProbeAudio_checks_store_first mocks.runtime
           {| usecase.pipeline_ := mocks.plainPipeline;
              usecase.workerPool :=
                pipeline.NewWorkerPool mocks.plainPipeline 4;
              usecase.storage := mocks.storage mocks.emptyStorage;
              usecase.reporter := None;
              usecase.retryCfg := retry.DefaultConfig |}
           "in.wav" mocks.world0 mocks.world0 false None eq_refl)));
    reflexivity.
Defined.

Lemma ProcessAudio_ignores_service_retry_witness :
  usecase.ProcessAudio mocks.runtime mocks.plainService "in.wav"
    "out.opus" [] mocks.world0
  = usecase.ProcessAudio mocks.runtime
      {| usecase.pipeline_ := mocks.plainPipeline;
         usecase.workerPool := pipeline.NewWorkerPool mocks.plainPipeline 1;
         usecase.storage := mocks.storage mocks.emptyStorage;
         usecase.reporter := Some usecase.NoopReporter;
         usecase.retryCfg :=
           {| retry.MaxAttempts := 10; retry.Delay := 0;
              retry.Multiplier := 1 # 1; retry.MaxDelay := 0 |} |}
      "in.wav" "out.opus" [] mocks.world0.
Proof.
  apply ProcessAudio_ignores_service_retry; reflexivity.
Defined.

Lemma NewAudioService_defaults_witness :
  pipeline.workers (usecase.workerPool mocks.plainService) = 4
  /\ retry.MaxAttempts (usecase.retryCfg mocks.plainService) = 3.
Proof.
  destruct (proj2 (NewAudioService_defaults mocks.plainConfig)
              mocks.plainService eq_refl) as (_ & _ & Hw & _).
  split; reflexivity.
Defined.

Lemma channel_reporter_drops_overflow_witness :
  progress.receive
    (report_all [cp_probed "j"; cp_started "j"; cp_encoded "j"]
       {| progress.queue := []; progress.capacity := 2 |})
  = (Some (cp_probed "j"),
     {| progress.queue := [cp_started "j"]; progress.capacity := 2 |}).
Proof.
  apply (proj2 (proj2 (channel_reporter_drops_overflow
                         [cp_probed "j"; cp_started "j"; cp_encoded "j"]
                         {| progress.queue := [];
                            progress.capacity := 2 |}))).
  reflexivity.
Defined.
